(** * AMY workshops: the views of [workshops/views.py]

    A shallow embedding of the request handlers that carry the workflows
    of the application: the duplicate finder and merger
    ([person_find_duplicates]), the bulk upload ([person_bulk_add],
    [person_bulk_add_confirmation]) and the pagination helper
    ([_get_pagination_items]).

    Conventions.
    - A Django queryset is the list of its rows; the Data Store is a record
      of tables threaded through the handlers.
    - A Python dict that is iterated ([groups]) is an association list in
      insertion order; a [QueryDict] ([request.POST], [request.GET]) is a
      [gmap] from field names to the list of posted values.
    - A handler returns its response together with the new session and
      store; an exception no handler catches is the response [Uncaught].
    - String comparison of the database ([IN], [GROUP BY], [ORDER BY]) is
      the exact, byte-wise one. *)

From Stdlib Require Import ZArith Lia Ascii String.
From stdpp Require Import base option list strings gmap sorting.

Open Scope string_scope.
Open Scope list_scope.
Open Scope Z_scope.

(** ** Exceptions *)

(** The exception classes the handlers name or let through. *)
Inductive exn : Type :=
  | TypeError (msg : string)
  | ValueError
  | KeyError
  | IndexError
  | ZeroDivisionError
  | EmptyPage
  | PageNotAnInteger
  | ValidationError (msg : string)
  | IntegrityError (msg : string)
  | ObjectDoesNotExist (msg : string)
  | InternalError (msg : string)
  | CsvError (msg : string)
  | UnicodeDecodeError
  | OverflowError.

(** ** Data model *)

Module Models.

Record Person : Type := mkPerson {
  person_id : Z;
  personal : string;
  middle : option string;
  family : string;
  email : option string
}.

(** Rows that hold a foreign key to [Person]. *)
Record Award : Type := mkAward { award_person : Z; award_badge : string }.
Record Qualification : Type := mkQualification { qual_person : Z; qual_skill : string }.
Record Task : Type := mkTask { task_event : string; task_person : Z; task_role : string }.

Record Store : Type := mkStore {
  persons : list Person;
  awards : list Award;
  qualifications : list Qualification;
  tasks : list Task;
  events : list string;   (* the slugs of the Event rows *)
  roles : list string     (* the names of the Role rows *)
}.

#[global] Instance Person_eq_dec : EqDecision Person.
Proof. solve_decision. Defined.
#[global] Instance Award_eq_dec : EqDecision Award.
Proof. solve_decision. Defined.
#[global] Instance Qualification_eq_dec : EqDecision Qualification.
Proof. solve_decision. Defined.
#[global] Instance Task_eq_dec : EqDecision Task.
Proof. solve_decision. Defined.
#[global] Instance Store_eq_dec : EqDecision Store.
Proof. solve_decision. Defined.

(** The key of a duplicate group. *)
Definition Key : Type := string * string.

(** Modelled from the spec: [Person.get_first_last] of
    [workshops/models.py], which is not among the sources.  The spec has
    the selected persons grouped "by the exact (personal, family) pair",
    so the key is that pair. *)
Definition get_first_last (p : Person) : Key := (personal p, family p).

(** The primary keys of a list of rows. *)
Definition ids (ps : list Person) : list Z := person_id <$> ps.

End Models.
Import Models.

(** ** Queries of the duplicate finder *)

Module Duplicates.

(** [COUNT] of the rows whose column [col] holds [v]. *)
Definition count_by (col : Person → string) (v : string) (ps : list Person) : nat :=
  length (filter (λ p, col p = v) ps).

(** [Person.objects.values(col).annotate(Count(col)).order_by()
    .filter(col__count__gt=1)]: one entry per value held more than once. *)
Definition dupes_by (col : Person → string) (ps : list Person) : list string :=
  filter (λ v, (1 < count_by col v ps)%nat) (remove_dups (col <$> ps)).

Definition dupes_personal : list Person → list string := dupes_by personal.
Definition dupes_family : list Person → list string := dupes_by family.

(** [order_by('personal', 'family')]. *)
Definition name_leb (p q : Person) : bool :=
  match String.compare (personal p) (personal q) with
  | Lt => true
  | Eq => String.leb (family p) (family q)
  | Gt => false
  end.

Definition name_le (p q : Person) : Prop := name_leb p q = true.

#[global] Instance name_le_dec : RelDecision name_le.
Proof. intros p q. unfold name_le. apply _. Defined.

Definition order_by_name (ps : list Person) : list Person := merge_sort name_le ps.

(** The candidates of the initial scan. *)
Definition dupes (ps : list Person) : list Person :=
  order_by_name
    (filter (λ p, family p ∈ dupes_family ps)
       (filter (λ p, personal p ∈ dupes_personal ps) ps)).

(** One round of the grouping loop:
    [if key not in groups: groups[key] = []; groups[key].append(person)]. *)
Fixpoint groups_append (key : Key) (person : Person)
    (groups : list (Key * list Person)) : list (Key * list Person) :=
  match groups with
  | [] => [(key, [person])]
  | (k, g) :: rest =>
      if decide (k = key) then (k, g ++ [person]) :: rest
      else (k, g) :: groups_append key person rest
  end.

Definition group_step (groups : list (Key * list Person)) (person : Person) :=
  groups_append (get_first_last person) person groups.

Definition group_persons (ps : list Person) : list (Key * list Person) :=
  foldl group_step [] ps.

(** [groups[key]], when [key in groups]. *)
Definition groups_get (key : Key) (groups : list (Key * list Person))
    : option (list Person) :=
  snd <$> head (filter (λ kv, kv.1 = key) groups).

(** The [groups] of the GET branch. *)
Definition scan_groups (st : Store) : list (Key * list Person) :=
  group_persons (dupes (persons st)).

End Duplicates.
Import Duplicates.

(** ** Python values and built-ins *)

Module Py.

(** Strings are the bytes of their UTF-8 form.  The built-ins below are
    those of Python on strings of ASCII characters; what Python reads in
    other characters (digits and white space of other scripts) is not
    modelled, and the statements about these built-ins say on which
    strings they stand ([is_ascii], [byte_exact]). *)

(** [str.isdigit]: non-empty and made of decimal digits only. *)
Definition is_digit (c : ascii) : bool :=
  (48 <=? nat_of_ascii c)%nat && (nat_of_ascii c <=? 57)%nat.

Fixpoint all_digits (s : string) : bool :=
  match s with
  | EmptyString => true
  | String c r => is_digit c && all_digits r
  end.

Definition isdigit (s : string) : bool :=
  match s with
  | EmptyString => false
  | String _ _ => all_digits s
  end.

(** The value of a run of decimal digits, most significant first, with
    single underscores between digits; [None] at any other character and
    at an underscore that no digit follows. *)
Fixpoint digits_value (acc : Z) (s : string) : option Z :=
  match s with
  | EmptyString => Some acc
  | String c r =>
      if is_digit c
      then digits_value (10 * acc + (Z.of_nat (nat_of_ascii c) - 48)) r
      else if bool_decide (c = "_"%char)
      then
        match r with
        | String d _ => if is_digit d then digits_value acc r else None
        | EmptyString => None
        end
      else None
  end.

Fixpoint digit_count (s : string) : nat :=
  match s with
  | EmptyString => O
  | String c r => ((if is_digit c then 1 else 0) + digit_count r)%nat
  end.

(** The most digits [int] reads in a string
    ([sys.int_info.default_max_str_digits]). *)
Definition MAX_STR_DIGITS : nat := 4300.

(** An unsigned literal: it starts with a digit and has no more digits
    than [int] reads. *)
Definition unsigned_value (s : string) : option Z :=
  match s with
  | EmptyString => None
  | String c _ =>
      if is_digit c && (digit_count s <=? MAX_STR_DIGITS)%nat
      then digits_value 0 s
      else None
  end.

(** ASCII white space, which [int] strips on both sides: the space, the
    characters 9 to 13 and the separators 28 to 31. *)
Definition is_space (c : ascii) : bool :=
  let n := nat_of_ascii c in
  (n =? 32)%nat || ((9 <=? n)%nat && (n <=? 13)%nat)
  || ((28 <=? n)%nat && (n <=? 31)%nat).

Fixpoint lstrip (s : string) : string :=
  match s with
  | EmptyString => EmptyString
  | String c r => if is_space c then lstrip r else s
  end.

Fixpoint rstrip (s : string) : string :=
  match s with
  | EmptyString => EmptyString
  | String c r =>
      match rstrip r with
      | EmptyString => if is_space c then EmptyString else String c EmptyString
      | r' => String c r'
      end
  end.

Definition strip (s : string) : string := lstrip (rstrip s).

(** [int(s)] for a string [s]: optional white space, an optional sign, and
    decimal digits with single underscores between them; [None] stands
    for [ValueError]. *)
Definition int_of_str (s : string) : option Z :=
  match strip s with
  | String "+"%char r => unsigned_value r
  | String "-"%char r => Z.opp <$> unsigned_value r
  | t => unsigned_value t
  end.

(** Is every byte of the string one that [P] accepts? *)
Fixpoint all_bytes (P : nat → bool) (s : string) : bool :=
  match s with
  | EmptyString => true
  | String c r => P (nat_of_ascii c) && all_bytes P r
  end.

(** A string of ASCII characters: on it, [int_of_str] is [int]. *)
Definition is_ascii (s : string) : bool := all_bytes (λ n, n <? 128)%nat s.

(** A name on which [isdigit] is [str.isdigit] whatever the digits of
    other scripts are: an ASCII name, or a name that holds an ASCII
    character that is no digit. *)
Definition byte_exact (s : string) : bool :=
  is_ascii s
  || negb (all_bytes (λ n, (127 <? n) || ((48 <=? n) && (n <=? 57)))%nat s).

(** The values a request parameter takes on its way to [int]. *)
Inductive value : Type :=
  | PyNone
  | PyStr (s : string)
  | PyInt (n : Z).

#[global] Instance value_eq_dec : EqDecision value.
Proof. solve_decision. Defined.

(** [int(v)]: [TypeError] on [None], [ValueError] on a string that is no
    integer literal. *)
Definition int (v : value) : exn + Z :=
  match v with
  | PyNone => inl (TypeError "int() argument must be a string or a number")
  | PyStr s => match int_of_str s with Some n => inr n | None => inl ValueError end
  | PyInt n => inr n
  end.

(** [x or None] on strings: the empty string is false. *)
Definition or_none (s : string) : option string :=
  match s with
  | EmptyString => None
  | String _ _ => Some s
  end.

(** [l[lo:hi]] on a list: negative bounds count from the end, and both
    are clamped to the list. *)
Definition slice_bound (len i : Z) : Z :=
  if i <? 0 then Z.max 0 (len + i) else Z.min i len.

Definition slice {A} (l : list A) (lo hi : Z) : list A :=
  let len := Z.of_nat (length l) in
  let lo' := slice_bound len lo in
  let hi' := slice_bound len hi in
  take (Z.to_nat (hi' - lo')) (drop (Z.to_nat lo') l).

End Py.

(** ** Requests *)

Inductive Method : Type := GET | POST.

#[global] Instance Method_eq_dec : EqDecision Method.
Proof. solve_decision. Defined.

(** A [QueryDict]: each field name with the values posted under it, in
    order.  A dictionary parsed from a request holds no empty value
    list. *)
Module QueryDict.

Definition keys (qd : gmap string (list string)) : list string :=
  (map_to_list qd).*1.

(** [qd.getlist(k)]. *)
Definition getlist (k : string) (qd : gmap string (list string)) : list string :=
  default [] (qd !! k).

(** [qd.get(k)]: the last value posted under [k], or [None]. *)
Definition get (k : string) (qd : gmap string (list string)) : option string :=
  qd !! k ≫= last.

(** Truth of [qd.get(k, None)]: present and not the empty string. *)
Definition truthy (k : string) (qd : gmap string (list string)) : bool :=
  match get k qd with
  | Some (String _ _) => true
  | _ => false
  end.

End QueryDict.

(** ** The record merger *)

Module Merger.

(** Repointing one foreign key: a row of a duplicate becomes a row of the
    primary. *)
Definition repoint (primary : Z) (dups : list Z) (fk : Z) : Z :=
  if decide (fk ∈ dups) then primary else fk.

Definition repoint_award (primary : Z) (dups : list Z) (a : Award) : Award :=
  mkAward (repoint primary dups (award_person a)) (award_badge a).

Definition repoint_qualification (primary : Z) (dups : list Z) (q : Qualification)
    : Qualification :=
  mkQualification (repoint primary dups (qual_person q)) (qual_skill q).

Definition repoint_task (primary : Z) (dups : list Z) (t : Task) : Task :=
  mkTask (task_event t) (repoint primary dups (task_person t)) (task_role t).

(** Modelled from the spec: [merge_model_objects] of [workshops/util.py],
    which is not among the sources.  The primary must not be among the
    duplicates ([ValidationError] otherwise); every row that refers to a
    duplicate is repointed to the primary, qualifications that coincide
    after repointing are kept once, and the duplicates are deleted.  The
    merge runs in one transaction: it yields either the new store or an
    exception that leaves the store as it was. *)
Definition merge_model_objects (primary_object : Person)
    (alias_objects : list Person) (st : Store) : exn + Store :=
  let dups := ids alias_objects in
  let primary := person_id primary_object in
  if decide (primary ∈ dups) then inl (ValidationError "primary not in group")
  else inr {|
    persons := filter (λ p, person_id p ∉ dups) (persons st);
    awards := repoint_award primary dups <$> awards st;
    qualifications :=
      remove_dups (repoint_qualification primary dups <$> qualifications st);
    tasks := repoint_task primary dups <$> tasks st;
    events := events st;
    roles := roles st
  |}.

End Merger.
Import Merger.

(** ** The view [person_find_duplicates] *)

Module FindDuplicates.

(** What the view reads of a request: the names of the posted fields and,
    for a group key, the value posted under the field
    ["{0}_primary".format(key)] ([None] when no such field was posted). *)
Record Request : Type := mkRequest {
  method : Method;
  POST_keys : list string;
  POST_primary : Key → option string
}.

(** The messages of the view, with their text as comments. *)
Inductive Message : Type :=
  | SelectAtLeastTwo           (* You must select at least two duplicate entries *)
  | PrimaryNotValid (primary_id : Z)
                               (* Primary not valid: {0} not in group *)
  | MergeFailed (e : string)   (* Merge failed, nothing was changed: {} *)
  | MergeSuccess.              (* Merge success *)

Inductive Response : Type :=
  | RenderDupes (title : string) (groups : list (Key * list Person))
      (button button_style : string)
  | Redirect (to : string)
  | Uncaught (e : exn).

Record Outcome : Type := mkOutcome {
  response : Response;
  messages : list Message;
  store : Store
}.

(** The outcome of a request whose groups were all merged. *)
Definition merged (st : Store) : Outcome :=
  mkOutcome (Redirect "person_find_duplicates") [MergeSuccess] st.

(** [post_array]: the posted field names that are numbers. *)
Definition post_array (req : Request) : list string :=
  filter (λ x, Py.isdigit x = true) (POST_keys req).

(** The largest integer the database stores; the driver refuses a key
    beyond it. *)
Definition MAX_ID : Z := 2 ^ 63 - 1.

(** The exception of the query [Person.objects.filter(id__in=post_array)],
    if there is one: [int] is applied to every name of [post_array]
    ([ValueError]), and the numbers are bound as integers of the database
    ([OverflowError]). *)
Definition query_error (req : Request) : option exn :=
  if bool_decide (Forall (λ x, is_Some (Py.int_of_str x)) (post_array req))
  then
    if bool_decide (Forall (λ n, n ≤ MAX_ID) (omap Py.int_of_str (post_array req)))
    then None
    else Some OverflowError
  else Some ValueError.

(** The requests on which the byte-wise built-ins are those of Python:
    [isdigit] on the field names, [int] on the posted primaries. *)
Definition within_model (req : Request) : Prop :=
  Forall (λ x, Py.byte_exact x = true) (POST_keys req)
  ∧ ∀ key v, POST_primary req key = Some v → Py.is_ascii v = true.

(** [Person.objects.filter(id__in=post_array).order_by('personal','family')],
    when the query raises nothing ([query_error]). *)
Definition selected_dupes (req : Request) (st : Store) : list Person :=
  order_by_name
    (filter (λ p, person_id p ∈ omap Py.int_of_str (post_array req)) (persons st)).

(** [{k: v for (k, v) in groups.items() if len(v) > 1}]. *)
Definition more_than_one (groups : list (Key * list Person)) : list (Key * list Person) :=
  filter (λ kv, (1 < length kv.2)%nat) groups.

(** The [groups] of the POST branch. *)
Definition confirm_groups (req : Request) (st : Store) : list (Key * list Person) :=
  more_than_one (group_persons (selected_dupes req st)).

(** [list.remove(x)]: drops the first element equal to [x]; two model
    instances are equal when their primary keys are. *)
Fixpoint list_remove (x : Person) (l : list Person) : list Person :=
  match l with
  | [] => []
  | y :: r => if decide (person_id y = person_id x) then r else y :: list_remove x r
  end.

(** The inner loop, which removes from the list it iterates over:
    [for person in group: if person.id == primary_id: primary = person;
    group.remove(primary)].  The iterator is the index [i]; it stops when
    [i] passes the end of the current list, after at most [length group]
    rounds. *)
Fixpoint find_primary_loop (rounds : nat) (i : nat) (primary_id : Z)
    (primary : option Person) (group : list Person) : option Person * list Person :=
  match rounds with
  | O => (primary, group)
  | S rounds' =>
      match group !! i with
      | None => (primary, group)
      | Some person =>
          if decide (person_id person = primary_id)
          then find_primary_loop rounds' (S i) primary_id (Some person)
                 (list_remove person group)
          else find_primary_loop rounds' (S i) primary_id primary group
      end
  end.

Definition find_primary (primary_id : Z) (group : list Person)
    : option Person * list Person :=
  find_primary_loop (length group) 0 primary_id None group.

(** The loop [for key, group in groups.items()] of the confirmed request,
    threading the store.  Only [TypeError] is caught; the [KeyError] of a
    missing primary field, the [ValueError] of [int] and any other
    exception of the merger leave the view uncaught. *)
Fixpoint merge_groups (req : Request) (groups : list (Key * list Person))
    (st : Store) : Outcome :=
  match groups with
  | [] => merged st
  | (key, group) :: rest =>
      match POST_primary req key with
      | None => mkOutcome (Uncaught KeyError) [] st
      | Some v =>
          match Py.int (Py.PyStr v) with
          | inl (TypeError e) =>
              mkOutcome (Redirect "person_find_duplicates") [MergeFailed e] st
          | inl e => mkOutcome (Uncaught e) [] st
          | inr primary_id =>
              match find_primary primary_id group with
              | (None, _) =>
                  mkOutcome (Redirect "person_find_duplicates")
                    [PrimaryNotValid primary_id] st
              | (Some primary, group') =>
                  match merge_model_objects primary group' st with
                  | inl (TypeError e) =>
                      mkOutcome (Redirect "person_find_duplicates") [MergeFailed e] st
                  | inl e => mkOutcome (Uncaught e) [] st
                  | inr st' => merge_groups req rest st'
                  end
              end
          end
      end
  end.

Definition person_find_duplicates (req : Request) (st : Store) : Outcome :=
  match method req with
  | GET =>
      mkOutcome
        (RenderDupes "Possible Duplicate Person Entries" (scan_groups st)
           "Merge" "primary")
        [] st
  | POST =>
      match query_error req with
      | Some e => mkOutcome (Uncaught e) [] st
      | None =>
          let groups := confirm_groups req st in
          if decide ("Confirm" ∈ POST_keys req) then merge_groups req groups st
          else
            match groups with
            | [] =>
                mkOutcome (Redirect "person_find_duplicates") [SelectAtLeastTwo] st
            | _ :: _ =>
                mkOutcome (RenderDupes "Confirm Merge" groups "Confirm" "success")
                  [] st
            end
      end
  end.

(** The [groups] a response puts in the template context. *)
Definition rendered_groups (o : Outcome) : list (Key * list Person) :=
  match response o with
  | RenderDupes _ groups _ _ => groups
  | _ => []
  end.

End FindDuplicates.

(** ** What a merge does to the store *)

Module Effects.

(** The persons with the primary key [z] and the rows that refer to [z]
    are the same in both stores. *)
Definition same_at (z : Z) (st st' : Store) : Prop :=
  (∀ p, person_id p = z → p ∈ persons st' ↔ p ∈ persons st)
  ∧ (∀ a, award_person a = z → a ∈ awards st' ↔ a ∈ awards st)
  ∧ (∀ q, qual_person q = z → q ∈ qualifications st' ↔ q ∈ qualifications st)
  ∧ (∀ t, task_person t = z → t ∈ tasks st' ↔ t ∈ tasks st).

(** No person has the primary key [z] and no row refers to [z]. *)
Definition gone (z : Z) (st : Store) : Prop :=
  (z ∉ ids (persons st))
  ∧ (z ∉ (award_person <$> awards st))
  ∧ (z ∉ (qual_person <$> qualifications st))
  ∧ (z ∉ (task_person <$> tasks st)).

(** Between [st] and [st'] the group was merged into [primary]: the
    primary is a member and still a person, the other members are gone,
    and every row that referred to a member is a row of the primary. *)
Definition merged_into (primary : Person) (group : list Person)
    (st st' : Store) : Prop :=
  primary ∈ group
  ∧ primary ∈ persons st'
  ∧ (∀ p, p ∈ group → p ≠ primary → gone (person_id p) st')
  ∧ (∀ a, a ∈ awards st → award_person a ∈ ids group →
          mkAward (person_id primary) (award_badge a) ∈ awards st')
  ∧ (∀ q, q ∈ qualifications st → qual_person q ∈ ids group →
          mkQualification (person_id primary) (qual_skill q) ∈ qualifications st')
  ∧ (∀ t, t ∈ tasks st → task_person t ∈ ids group →
          mkTask (task_event t) (person_id primary) (task_role t) ∈ tasks st').

End Effects.

(** ** Staged upload records *)

Module Staged.

(** The [errors] annotation of a verified record: field name and
    messages. *)
Definition Errors : Type := list (string * list string).

(** One entry of [request.session['bulk-add-people']]. *)
Record t : Type := mk {
  personal : string;
  middle : option string;
  family : string;
  email : option string;
  event : option string;
  role : option string;
  errors : option Errors
}.

#[global] Instance eq_dec : EqDecision t.
Proof. solve_decision. Defined.

End Staged.

(** ** The view [person_bulk_add] *)

Module BulkAdd.

Record Request : Type := mkRequest {
  method : Method;
  form_is_valid : bool;           (* form.is_valid() *)
  file_charset : option string;   (* request.FILES['file'].charset *)
  file : string                   (* the bytes of request.FILES['file'] *)
}.

Inductive Message : Type :=
  | ErrorProcessing (e : string)       (* Error processing uploaded .CSV file: {} *)
  | ProvideEncoding (charset : string) (* Please provide a file in {} encoding. *)
  | RequiredFieldsNotFound (names : string).
      (* The following required fields were not found in the uploaded file: {} *)

Inductive Response : Type :=
  | RenderForm (charset : string)      (* workshops/person_bulk_add_form.html *)
  | Redirect (to : string)
  | Uncaught (e : exn).

Record Outcome : Type := mkOutcome {
  response : Response;
  messages : list Message;
  session : option (list Staged.t)     (* request.session['bulk-add-people'] *)
}.

Section View.

(** [settings.DEFAULT_CHARSET]. *)
Variable DEFAULT_CHARSET : string.

(** [upload_person_task_csv] of [workshops/util.py], applied to the
    uploaded bytes read in a charset: the records and the required columns
    that are missing, or the exception of the reader. *)
Variable upload_person_task_csv :
  string → string → exn + (list Staged.t * list string).

(** [request.FILES['file'].charset or settings.DEFAULT_CHARSET]. *)
Definition charset_of (req : Request) : string :=
  match file_charset req with
  | Some (String c r) => String c r
  | _ => DEFAULT_CHARSET
  end.

Definition person_bulk_add (req : Request) (session : option (list Staged.t))
    : Outcome :=
  let form_page := RenderForm DEFAULT_CHARSET in
  match method req with
  | GET => mkOutcome form_page [] session
  | POST =>
      if form_is_valid req then
        let charset := charset_of req in
        match upload_person_task_csv charset (file req) with
        | inl (CsvError e) => mkOutcome form_page [ErrorProcessing e] session
        | inl UnicodeDecodeError => mkOutcome form_page [ProvideEncoding charset] session
        | inl e => mkOutcome (Uncaught e) [] session
        | inr (persons_tasks, empty_fields) =>
            match empty_fields with
            | _ :: _ =>
                mkOutcome form_page
                  [RequiredFieldsNotFound (String.concat ", " empty_fields)] session
            | [] =>
                mkOutcome (Redirect "person_bulk_add_confirmation") []
                  (Some persons_tasks)
            end
        end
      else mkOutcome form_page [] session
  end.

End View.

End BulkAdd.

(** ** The view [person_bulk_add_confirmation] *)

Module BulkConfirm.

Record Request : Type := mkRequest {
  method : Method;
  POST_data : gmap string (list string)   (* request.POST *)
}.

Inductive Message : Type :=
  | CouldNotLocate
      (* Could not locate CSV data, please try the upload again. *)
  | FixAllErrors
      (* Please make sure to fix all errors listed below. *)
  | ErrorSaving (e : exn)
      (* Error saving data to the database: {}. Please make sure to fix all
         errors listed below. *)
  | Uploaded (persons_created tasks_created : nat).
      (* Successfully uploaded {0} persons and {1} tasks. *)

Inductive Response : Type :=
  | RenderResults (persons_tasks : list Staged.t) (status : Z)
      (* workshops/person_bulk_add_results.html *)
  | Redirect (to : string)
  | Uncaught (e : exn).

Record Outcome : Type := mkOutcome {
  response : Response;
  messages : list Message;
  session : option (list Staged.t);       (* request.session['bulk-add-people'] *)
  store : Store
}.

(** [zip(personals, middles, families, emails, events, roles)]. *)
Definition data_update (post : gmap string (list string))
    : list (string * string * string * string * string * string) :=
  zip (zip (zip (zip (zip (QueryDict.getlist "personal" post)
                          (QueryDict.getlist "middle" post))
                     (QueryDict.getlist "family" post))
                (QueryDict.getlist "email" post))
           (QueryDict.getlist "event" post))
      (QueryDict.getlist "role" post).

(** The length of the shortest of the six posted lists, where [zip]
    stops. *)
Definition shortest (post : gmap string (list string)) : nat :=
  let len field := length (QueryDict.getlist field post) in
  Nat.min (Nat.min (Nat.min (Nat.min (Nat.min (len "personal") (len "middle"))
                                     (len "family"))
                            (len "email"))
                   (len "event"))
          (len "role").

(** The dictionary the loop stores at [persons_tasks[k]]. *)
Definition updated_record
    (record : string * string * string * string * string * string) : Staged.t :=
  let '(personal, middle, family, email, event, role) := record in
  {| Staged.personal := personal;
     Staged.middle := Py.or_none middle;
     Staged.family := family;
     Staged.email := Py.or_none email;
     Staged.event := Some event;
     Staged.role := Some role;
     Staged.errors := None |}.

(** [for k, record in enumerate(data_update): persons_tasks[k] = ...]:
    the list as the loop leaves it, and the [IndexError] of an assignment
    past its end. *)
Fixpoint update_loop (k : nat)
    (records : list (string * string * string * string * string * string))
    (persons_tasks : list Staged.t) : list Staged.t * option exn :=
  match records with
  | [] => (persons_tasks, None)
  | record :: rest =>
      if decide (k < length persons_tasks)%nat
      then update_loop (S k) rest (<[k := updated_record record]> persons_tasks)
      else (persons_tasks, Some IndexError)
  end.

Definition update_staged (post : gmap string (list string))
    (persons_tasks : list Staged.t) : list Staged.t * option exn :=
  update_loop 0 (data_update post) persons_tasks.

(** The exceptions of the [except] clause around the commit. *)
Definition is_commit_error (e : exn) : bool :=
  match e with
  | IntegrityError _ | ObjectDoesNotExist _ | InternalError _ => true
  | _ => false
  end.

Section View.

(** [verify_upload_person_task] of [workshops/util.py]: annotates the
    records in place (here: returns them annotated) and tells whether any
    has an error. *)
Variable verify_upload_person_task : Store → list Staged.t → list Staged.t * bool.

(** [create_uploaded_persons_tasks] of [workshops/util.py]: the persons and
    tasks created, with the store after the commit; the batch commits in
    one transaction, so an exception leaves the store as it was. *)
Variable create_uploaded_persons_tasks :
  Store → list Staged.t → exn + (list Person * list Task * Store).

(** The session keeps the list object itself, so the annotations that a
    later verification writes are part of what the session saves at the
    end of the request; a request that ends in an uncaught exception saves
    nothing. *)
Definition person_bulk_add_confirmation (req : Request)
    (session : option (list Staged.t)) (st : Store) : Outcome :=
  match session with
  | None | Some [] =>
      mkOutcome (Redirect "person_bulk_add") [CouldNotLocate] session st
  | Some persons_tasks =>
      match method req with
      | POST =>
          let post := POST_data req in
          match update_staged post persons_tasks with
          | (_, Some e) => mkOutcome (Uncaught e) [] session st
          | (persons_tasks, None) =>
              if QueryDict.truthy "verify" post then
                let '(verified, any_errors) :=
                  verify_upload_person_task st persons_tasks in
                mkOutcome (RenderResults verified 200)
                  (if any_errors then [FixAllErrors] else [])
                  (Some verified) st
              else if QueryDict.truthy "confirm" post
                      && negb (QueryDict.truthy "cancel" post) then
                let verified := (verify_upload_person_task st persons_tasks).1 in
                match create_uploaded_persons_tasks st verified with
                | inl e =>
                    if is_commit_error e then
                      let reverified := (verify_upload_person_task st verified).1 in
                      mkOutcome (RenderResults reverified 400) [ErrorSaving e]
                        (Some reverified) st
                    else mkOutcome (Uncaught e) [] session st
                | inr (persons_created, tasks_created, st') =>
                    mkOutcome (Redirect "person_bulk_add")
                      [Uploaded (length persons_created) (length tasks_created)]
                      None st'
                end
              else mkOutcome (Redirect "person_bulk_add") [] None st
          end
      | GET =>
          let verified := (verify_upload_person_task st persons_tasks).1 in
          mkOutcome (RenderResults verified 200) [] session st
      end
  end.

End View.

End BulkConfirm.

(** ** Pagination *)

(** [django.core.paginator.Paginator] with its defaults ([orphans=0],
    [allow_empty_first_page=True]) over a list of objects. *)
Module Paginator.

Record t (A : Type) : Type := mk {
  object_list : list A;
  per_page : Z
}.
Arguments mk {A} _ _.
Arguments object_list {A} _.
Arguments per_page {A} _.

(** A [Page]: its objects and its number. *)
Record Page (A : Type) : Type := mkPage {
  page_objects : list A;
  number : Z
}.
Arguments mkPage {A} _ _.
Arguments page_objects {A} _.
Arguments number {A} _.

(** The least integer that [float] refuses with [OverflowError]. *)
Definition FLOAT_OVERFLOW : Z := 2 ^ 1024 - 2 ^ 970.


Section Pages.

Context {A : Type}.

Definition count (p : t A) : Z := Z.of_nat (length (object_list p)).

(** [int(ceil(hits / float(per_page)))] with [hits = max(1, count)]: the
    division raises at [per_page = 0], and [float] raises on an integer
    that rounds to [2 ^ 1024] or beyond.  For fewer than [2 ^ 52] objects
    the quotient of the floats rounds to the ceiling of the exact
    quotient, which is the value here. *)
Definition num_pages (p : t A) : exn + Z :=
  if per_page p =? 0 then inl ZeroDivisionError
  else if FLOAT_OVERFLOW <=? Z.abs (per_page p) then inl OverflowError
  else inr (- ((- Z.max 1 (count p)) / per_page p)).

Definition validate_number (p : t A) (number : Py.value) : exn + Z :=
  match Py.int number with
  | inl _ => inl PageNotAnInteger
  | inr n =>
      if n <? 1 then inl EmptyPage
      else
        match num_pages p with
        | inl e => inl e
        | inr pages =>
            if (pages <? n) && negb (n =? 1) then inl EmptyPage else inr n
        end
  end.

Definition page (p : t A) (number : Py.value) : exn + Page A :=
  match validate_number p number with
  | inl e => inl e
  | inr n =>
      let bottom := (n - 1) * per_page p in
      let top := bottom + per_page p in
      let top := if count p <=? top then count p else top in
      inr (mkPage (Py.slice (object_list p) bottom top) n)
  end.

End Pages.

End Paginator.

Module Pagination.

Definition ITEMS_PER_PAGE : Z := 25.

(** What [_get_pagination_items] returns: all the objects, or a page. *)
Inductive Result (A : Type) : Type :=
  | AllObjects (objects : list A)
  | OnePage (page : Paginator.Page A).
Arguments AllObjects {A} _.
Arguments OnePage {A} _.

(** [items] after the first block of the function: the string ['all'] or
    an integer. *)
Definition items_per_page (get : gmap string (list string)) : exn + Py.value :=
  let items :=
    match QueryDict.get "items_per_page" get with
    | Some s => Py.PyStr s
    | None => Py.PyInt ITEMS_PER_PAGE
    end in
  if decide (items = Py.PyStr "all") then inr items
  else
    match Py.int items with
    | inr n => inr (Py.PyInt n)
    | inl ValueError => inr (Py.PyInt ITEMS_PER_PAGE)
    | inl e => inl e
    end.


(** [request.GET.get('page')]. *)
Definition page_param (get : gmap string (list string)) : Py.value :=
  match QueryDict.get "page" get with
  | Some s => Py.PyStr s
  | None => Py.PyNone
  end.

Definition one_page {A} (r : exn + Paginator.Page A) : exn + Result A :=
  match r with
  | inl e => inl e
  | inr result => inr (OnePage result)
  end.

Definition _get_pagination_items {A} (get : gmap string (list string))
    (all_objects : list A) : exn + Result A :=
  match items_per_page get with
  | inl e => inl e
  | inr (Py.PyInt items) =>
      let paginator := Paginator.mk all_objects items in
      match Paginator.page paginator (page_param get) with
      | inr result => inr (OnePage result)
      | inl PageNotAnInteger => one_page (Paginator.page paginator (Py.PyInt 1))
      | inl EmptyPage =>
          match Paginator.num_pages paginator with
          | inl e => inl e
          | inr pages => one_page (Paginator.page paginator (Py.PyInt pages))
          end
      | inl e => inl e
      end
  | inr _ => inr (AllObjects all_objects)
  end.

End Pagination.

(** ** The verifier and the committer of uploads *)

Module Upload.

(** Does the string hold the character? *)
Fixpoint has_char (c : ascii) (s : string) : bool :=
  match s with
  | EmptyString => false
  | String d r => if decide (c = d) then true else has_char c r
  end.

(** A named reference ([event], [role]): given and not empty. *)
Definition named (v : option string) : option string := v ≫= Py.or_none.

Definition record_errors (st : Store) (r : Staged.t) : Staged.Errors :=
  (if decide (Staged.personal r = "") then [("personal", ["Field cannot be empty."])] else [])
  ++ (if decide (Staged.family r = "") then [("family", ["Field cannot be empty."])] else [])
  ++ match Staged.email r with
     | Some e => if has_char "@" e then [] else [("email", ["Enter a valid email address."])]
     | None => []
     end
  ++ match named (Staged.event r) with
     | Some e => if decide (e ∈ events st) then [] else [("event", ["Event does not exist."])]
     | None => []
     end
  ++ match named (Staged.role r) with
     | Some e => if decide (e ∈ roles st) then [] else [("role", ["Role does not exist."])]
     | None => []
     end.

Definition annotate (st : Store) (r : Staged.t) : Staged.t :=
  {| Staged.personal := Staged.personal r;
     Staged.middle := Staged.middle r;
     Staged.family := Staged.family r;
     Staged.email := Staged.email r;
     Staged.event := Staged.event r;
     Staged.role := Staged.role r;
     Staged.errors := Some (record_errors st r) |}.

Definition has_errors (r : Staged.t) : bool :=
  match Staged.errors r with
  | Some (_ :: _) => true
  | _ => false
  end.

(** Modelled from the spec: [verify_upload_person_task] of
    [workshops/util.py], which is not among the sources.  Names must not be
    empty, an email must look like an address, a named event and a named
    role must exist; each record gets its [errors], and the result tells
    whether any record has one. *)
Definition verify_upload_person_task (st : Store) (persons_tasks : list Staged.t)
    : list Staged.t * bool :=
  let verified := annotate st <$> persons_tasks in
  (verified, existsb has_errors verified).

(** A primary key no row of the table has. *)
Definition fresh_id (ps : list Person) : Z :=
  1 + foldr Z.max 0 (ids ps).

Definition find_by_email (e : option string) (ps : list Person) : option Person :=
  match e with
  | Some _ => head (filter (λ p, email p = e) ps)
  | None => None
  end.

(** The commit of one record, on the persons and tasks created so far and
    the store. *)
Definition create_one (acc : list Person * list Task * Store) (r : Staged.t)
    : exn + (list Person * list Task * Store) :=
  let '(persons_created, tasks_created, st) := acc in
  let '(p, persons_created, st) :=
    match find_by_email (Staged.email r) (persons st) with
    | Some p => (p, persons_created, st)
    | None =>
        let p := mkPerson (fresh_id (persons st)) (Staged.personal r)
                   (Staged.middle r) (Staged.family r) (Staged.email r) in
        (p, persons_created ++ [p],
         mkStore (persons st ++ [p]) (awards st) (qualifications st) (tasks st)
           (events st) (roles st))
    end in
  match named (Staged.event r), named (Staged.role r) with
  | Some e, Some ro =>
      if decide (e ∈ events st) then
        if decide (ro ∈ roles st) then
          let t := mkTask e (person_id p) ro in
          if decide (t ∈ tasks st) then inr (persons_created, tasks_created, st)
          else
            inr (persons_created, tasks_created ++ [t],
                 mkStore (persons st) (awards st) (qualifications st)
                   (tasks st ++ [t]) (events st) (roles st))
        else inl (ObjectDoesNotExist "Role matching query does not exist.")
      else inl (ObjectDoesNotExist "Event matching query does not exist.")
  | _, _ => inr (persons_created, tasks_created, st)
  end.

Fixpoint create_all (acc : list Person * list Task * Store) (rs : list Staged.t)
    : exn + (list Person * list Task * Store) :=
  match rs with
  | [] => inr acc
  | r :: rest =>
      match create_one acc r with
      | inl e => inl e
      | inr acc' => create_all acc' rest
      end
  end.

(** Modelled from the spec: [create_uploaded_persons_tasks] of
    [workshops/util.py], which is not among the sources.  A record with
    errors must not reach the committer; a person is reused by email or
    created, a task is created for a named event and role unless it
    exists; the batch is one transaction, so an exception carries no
    store. *)
Definition create_uploaded_persons_tasks (st : Store) (persons_tasks : list Staged.t)
    : exn + (list Person * list Task * Store) :=
  if existsb has_errors persons_tasks
  then inl (InternalError "Uploaded data contains errors, cancelling upload.")
  else create_all ([], [], st) persons_tasks.

(** The columns an upload must name. *)
Definition PERSON_TASK_UPLOAD_FIELDS : list string :=
  ["personal"; "middle"; "family"; "email"; "event"; "role"].

(** Breaks a string at each occurrence of a character. *)
Fixpoint split_on (c : ascii) (s : string) : list string :=
  match s with
  | EmptyString => [EmptyString]
  | String d r =>
      if decide (c = d) then EmptyString :: split_on c r
      else
        match split_on c r with
        | [] => [String d EmptyString]
        | w :: ws => String d w :: ws
        end
  end.

Fixpoint index_of (name : string) (header : list string) : option nat :=
  match header with
  | [] => None
  | h :: rest => if decide (h = name) then Some O else S <$> index_of name rest
  end.

(** The value of a row in the column a header gives a name; empty when
    the column or the cell is missing. *)
Definition cell (header row : list string) (name : string) : string :=
  default "" (index_of name header ≫= λ i, row !! i).

Definition read_row (header row : list string) : Staged.t :=
  {| Staged.personal := cell header row "personal";
     Staged.middle := Py.or_none (cell header row "middle");
     Staged.family := cell header row "family";
     Staged.email := Py.or_none (cell header row "email");
     Staged.event := Py.or_none (cell header row "event");
     Staged.role := Py.or_none (cell header row "role");
     Staged.errors := None |}.

Fixpoint has_byte (P : nat → bool) (s : string) : bool :=
  match s with
  | EmptyString => false
  | String c r => P (nat_of_ascii c) || has_byte P r
  end.

(** Modelled from the spec: [upload_person_task_csv] of
    [workshops/util.py], which is not among the sources, for plain
    comma-separated lines without quoting.  The first line is the header;
    each further line is a record, its optional fields absent when empty;
    the required columns the header lacks are reported.  A NUL byte is a
    [csv.Error]; a byte above 127 cannot be decoded as ASCII. *)
Definition upload_person_task_csv (charset : string) (file : string)
    : exn + (list Staged.t * list string) :=
  if bool_decide (charset = "ascii") && has_byte (λ n, 127 <? n)%nat file
  then inl UnicodeDecodeError
  else if has_byte (λ n, n =? 0)%nat file
  then inl (CsvError "line contains NULL byte")
  else
    match filter (λ l, l ≠ "") (split_on "010" file) with
    | [] => inr ([], PERSON_TASK_UPLOAD_FIELDS)
    | first :: lines =>
        let header := split_on "," first in
        inr (read_row header <$> (split_on "," <$> lines),
             filter (λ f, f ∉ header) PERSON_TASK_UPLOAD_FIELDS)
    end.

End Upload.

(** ** Sample data *)

Module Samples.

(** A store to try the finder on: two Harry Potters, a Harry Weasley and
    a Hermione Granger. *)
Definition hogwarts : Store :=
  {| persons :=
       [ mkPerson 1 "Harry" None "Potter" (Some "harry@hogwarts.edu");
         mkPerson 2 "Harry" None "Weasley" None;
         mkPerson 3 "Hermione" None "Granger" (Some "hermione@granger.co.uk");
         mkPerson 4 "Harry" (Some "J.") "Potter" None ];
     awards := [ mkAward 1 "instructor"; mkAward 4 "instructor" ];
     qualifications := [ mkQualification 1 "SQL"; mkQualification 4 "SQL";
                         mkQualification 4 "Git" ];
     tasks := [ mkTask "2014-alpha-event" 4 "instructor" ];
     events := [ "2014-alpha-event" ];
     roles := [ "instructor"; "helper" ] |}.

Definition scan_request : FindDuplicates.Request :=
  FindDuplicates.mkRequest GET [] (λ _, None).

(** The confirmation of the merge of the two Harry Potters into person 1. *)
Definition merge_request : FindDuplicates.Request :=
  FindDuplicates.mkRequest POST ["1"; "4"; "Confirm"; "csrfmiddlewaretoken"]
    (λ key, if decide (key = ("Harry", "Potter")) then Some "1" else None).

(** The same confirmation, naming as primary a person outside the group. *)
Definition stray_primary_request : FindDuplicates.Request :=
  FindDuplicates.mkRequest POST ["1"; "4"; "Confirm"; "csrfmiddlewaretoken"]
    (λ key, if decide (key = ("Harry", "Potter")) then Some "2" else None).

(** A store with a second pair of namesakes. *)
Definition hogwarts_and_burrow : Store :=
  {| persons :=
       persons hogwarts
       ++ [ mkPerson 5 "Ron" None "Weasley" (Some "rweasley@ministry.gov.uk");
            mkPerson 6 "Ron" (Some "B.") "Weasley" None ];
     awards := awards hogwarts ++ [ mkAward 6 "instructor" ];
     qualifications := qualifications hogwarts;
     tasks := tasks hogwarts;
     events := events hogwarts;
     roles := roles hogwarts |}.

(** The confirmation of two merges: the Harry Potters into person 1, the
    Ron Weasleys into a person 7 that is not one of them. *)
Definition two_groups_request : FindDuplicates.Request :=
  FindDuplicates.mkRequest POST ["1"; "4"; "5"; "6"; "Confirm"]
    (λ key, if decide (key = ("Harry", "Potter")) then Some "1"
            else if decide (key = ("Ron", "Weasley")) then Some "7"
            else None).

(** A staged batch of two records, the second naming an event. *)
Definition staged_batch : list Staged.t :=
  [ Staged.mk "Hermione" None "Granger" (Some "hermione@granger.co.uk")
      (Some "2014-alpha-event") (Some "instructor") None;
    Staged.mk "Ron" (Some "B.") "Weasley" None None None (Some []) ].

(** The resubmission of the first record with every optional field
    emptied, asking to save. *)
Definition resubmission : gmap string (list string) :=
  list_to_map
    [ ("personal", ["Hermione"]); ("middle", [""]); ("family", ["Granger"]);
      ("email", [""]); ("event", [""]); ("role", [""]);
      ("confirm", ["Confirm"]) ].

(** A resubmission that names an event the store does not have. *)
Definition resubmission_unknown_event : gmap string (list string) :=
  list_to_map
    [ ("personal", ["Hermione"]); ("middle", [""]); ("family", ["Granger"]);
      ("email", ["hermione@granger.co.uk"]); ("event", ["2015-beta-event"]);
      ("role", ["instructor"]); ("confirm", ["Confirm"]) ].

(** An uploaded file. *)
Definition upload_file : string :=
  "personal,middle,family,email,event,role" +:+ String "010" ""
  +:+ "Hermione,,Granger,hermione@granger.co.uk,2014-alpha-event,instructor"
  +:+ String "010" "".

Definition upload_request : BulkAdd.Request :=
  BulkAdd.mkRequest POST true None upload_file.

(** The two resubmissions as requests. *)
Definition save_request : BulkConfirm.Request :=
  BulkConfirm.mkRequest POST resubmission.

Definition save_unknown_event_request : BulkConfirm.Request :=
  BulkConfirm.mkRequest POST resubmission_unknown_event.

(** A batch of one record, as the upload stages it. *)
Definition staged_hermione : list Staged.t :=
  [ Staged.mk "Hermione" None "Granger" (Some "hermione@granger.co.uk")
      (Some "2014-alpha-event") (Some "instructor") None ].

(** Query strings of a list view: [?items_per_page=0], with and without
    a page, and [?items_per_page=-1&page=7]. *)
Definition zero_items : gmap string (list string) :=
  list_to_map [ ("items_per_page", ["0"]) ].

Definition zero_items_page_x : gmap string (list string) :=
  list_to_map [ ("items_per_page", ["0"]); ("page", ["x"]) ].

Definition zero_items_page_7 : gmap string (list string) :=
  list_to_map [ ("items_per_page", ["0"]); ("page", ["7"]) ].

Definition negative_items_page_7 : gmap string (list string) :=
  list_to_map [ ("items_per_page", ["-1"]); ("page", ["7"]) ].

End Samples.

(** ** The view [validate_event] *)

Module ValidateEvent.

(** [s.replace(old, new)] for a non-empty [old]: every occurrence, from
    the left and without overlap.  [skip] counts the characters of a
    match still to pass over. *)
Fixpoint replace_from (skip : nat) (old new s : string) : string :=
  match s with
  | EmptyString => EmptyString
  | String c r =>
      match skip with
      | S k => replace_from k old new r
      | O =>
          if String.prefix old s
          then new +:+ replace_from (String.length old - 1) old new r
          else String c (replace_from 0 old new r)
      end
  end.

Definition replace (old new s : string) : string := replace_from 0 old new s.

(** [s.rstrip(ch)] for one character [ch]. *)
Fixpoint rstrip_char (ch : ascii) (s : string) : string :=
  match s with
  | EmptyString => EmptyString
  | String c r =>
      match rstrip_char ch r with
      | EmptyString => if decide (c = ch) then EmptyString else String c EmptyString
      | r' => String c r'
      end
  end.

(** The address of the page to check, from the address of the event. *)
Definition page_url_of (github_url : string) : string :=
  rstrip_char "/" (replace "github.com" "raw.githubusercontent.com" github_url)
  +:+ "/gh-pages/index.html".

(** The columns of an event the view reads. *)
Record Event : Type := mkEvent {
  event_slug : string;
  event_url : option string
}.

(** An entry of [error_messages]: the one the view writes for a status
    other than 200, or one of the checker. *)
Inductive ErrorMessage : Type :=
  | BadStatus (page_url : string) (status_code : Z)
      (* Request for {0} returned status code {1} *)
  | Found (msg : string).

Inductive Response : Type :=
  | Render (event : Event) (page : option string) (error_messages : list ErrorMessage)
      (* workshops/validate_event.html *)
  | Uncaught (e : exn).

Section View.

(** [Event.get_by_ident] of [workshops/models.py]. *)
Variable get_by_ident : string → exn + Event.

(** [requests.get(page_url)]: the status code and the text of the
    answer. *)
Variable requests_get : string → Z * string.

(** [check_file] of [workshops/check.py]: validity and messages. *)
Variable check_file : string → string → bool * list string.

Definition validate_event (get : gmap string (list string)) (event_ident : string)
    : Response :=
  match get_by_ident event_ident with
  | inl e => Uncaught e
  | inr event =>
      let github_url :=
        match QueryDict.get "url" get with
        | Some url => Some url
        | None => event_url event
        end in
      match github_url with
      | None => Render event None []
      | Some github_url =>
          let page_url := page_url_of github_url in
          let '(status_code, text) := requests_get page_url in
          if decide (status_code ≠ 200)
          then Render event (Some page_url) [BadStatus page_url status_code]
          else Render event (Some page_url) (Found <$> (check_file page_url text).2)
      end
  end.

End View.

End ValidateEvent.

(** ** The view [debrief] *)

Module Debrief.

(** A [Task] row with the columns of its event, person and role that the
    query reads; dates are day numbers, [None] is NULL. *)
Record Row : Type := mkRow {
  row_event : Z;
  row_person : Z;
  row_role : Z;
  event_start : option Z;
  event_end : option Z;
  role_name : string;
  may_contact : bool
}.

#[global] Instance Row_eq_dec : EqDecision Row.
Proof. solve_decision. Defined.

Record Request : Type := mkRequest {
  method : Method;
  form_is_valid : bool;     (* form.is_valid() *)
  begin_date : Z;           (* form.cleaned_data['begin_date'] *)
  end_date : Z              (* form.cleaned_data['end_date'] *)
}.

Inductive Response : Type :=
  | Render (all_tasks : option (list Row))   (* workshops/debrief.html *)
  | UnboundLocalError (name : string).

(** [col__gte=v] and [col__lte=v] on a column that may be NULL. *)
Definition gte (col : option Z) (v : Z) : Prop :=
  match col with Some c => v ≤ c | None => False end.

Definition lte (col : option Z) (v : Z) : Prop :=
  match col with Some c => c ≤ v | None => False end.

#[global] Instance gte_dec col v : Decision (gte col v).
Proof. destruct col; simpl; apply _. Defined.

#[global] Instance lte_dec col v : Decision (lte col v).
Proof. destruct col; simpl; apply _. Defined.

(** [order_by('event', 'person', 'role')]. *)
Definition row_le (a b : Row) : Prop :=
  row_event a < row_event b
  ∨ (row_event a = row_event b
     ∧ (row_person a < row_person b
        ∨ (row_person a = row_person b ∧ row_role a ≤ row_role b))).

#[global] Instance row_le_dec : RelDecision row_le.
Proof. intros a b. unfold row_le. apply _. Defined.

(** The query of the view. *)
Definition taught_between (begin_date end_date : Z) (tasks : list Row) : list Row :=
  merge_sort row_le
    (filter (λ t, gte (event_end t) begin_date
                  ∧ lte (event_start t) end_date
                  ∧ role_name t = "instructor"
                  ∧ may_contact t = true) tasks).

(** [tasks] is bound on a GET and on a valid POST only. *)
Definition debrief (req : Request) (tasks : list Row) : Response :=
  match method req with
  | POST =>
      if form_is_valid req
      then Render (Some (taught_between (begin_date req) (end_date req) tasks))
      else UnboundLocalError "tasks"
  | GET => Render None
  end.

End Debrief.

(** ** The exports *)

Module Exports.

Record Badge : Type := mkBadge {
  badge_id : Z;
  badge_name : string
}.

(** An [Award] row by its keys. *)
Record AwardRow : Type := mkAwardRow {
  award_person_id : Z;
  award_badge_id : Z
}.

(** The columns of a [Person] row the exports read; [full_name] is the
    value of [get_full_name()]. *)
Record PersonRow : Type := mkPersonRow {
  row_id : Z;
  username : string;
  full_name : string;
  airport_id : option Z
}.

Record Airport : Type := mkAirport {
  airport_pk : Z;
  fullname : string;
  latlng : string     (* '{0},{1}'.format(latitude, longitude) *)
}.

(** [{"user": ..., "name": ...}]. *)
Record BadgeEntry : Type := mkBadgeEntry {
  user : string;
  name : string
}.

(** [{'airport': ..., 'latlng': ..., 'count': ...}]. *)
Record AirportEntry : Type := mkAirportEntry {
  airport : string;
  airport_latlng : string;
  count : nat
}.

#[global] Instance AwardRow_eq_dec : EqDecision AwardRow.
Proof. solve_decision. Defined.
#[global] Instance PersonRow_eq_dec : EqDecision PersonRow.
Proof. solve_decision. Defined.

(** [Person.objects.filter(award__badge_id=b)]: the join gives a person
    once for each of their awards of the badge. *)
Definition persons_with_badge (b : Z) (persons : list PersonRow)
    (awards : list AwardRow) : list PersonRow :=
  p ← persons;
  (λ _, p) <$> filter (λ a, award_person_id a = row_id p ∧ award_badge_id a = b) awards.

Definition _export_badges (badges : list Badge) (persons : list PersonRow)
    (awards : list AwardRow) : gmap string (list BadgeEntry) :=
  foldl (λ result badge,
           <[badge_name badge :=
               (λ p, mkBadgeEntry (username p) (full_name p))
               <$> persons_with_badge (badge_id badge) persons awards]> result)
        ∅ badges.

(** [Count('person')] for an airport. *)
Definition num_persons (a : Airport) (persons : list PersonRow) : nat :=
  length (filter (λ p, airport_id p = Some (airport_pk a)) persons).

(** [Airport.objects.exclude(person=None).annotate(num_persons=Count('person'))]
    and the entries made of it. *)
Definition _export_instructors (airports : list Airport) (persons : list PersonRow)
    : list AirportEntry :=
  (λ a, mkAirportEntry (fullname a) (latlng a) (num_persons a persons))
  <$> filter (λ a, num_persons a persons ≠ 0%nat) airports.

End Exports.

(** ** Further sample data *)

Module MoreSamples.

(** A confirmation that posts no primary for the group. *)
Definition no_primary_request : FindDuplicates.Request :=
  FindDuplicates.mkRequest POST ["1"; "4"; "Confirm"] (λ _, None).

(** A selection of two persons that are no namesakes, not yet confirmed. *)
Definition lone_selection_request : FindDuplicates.Request :=
  FindDuplicates.mkRequest POST ["1"; "3"; "csrfmiddlewaretoken"] (λ _, None).

(** A resubmission of two rows, asking to verify. *)
Definition two_rows : gmap string (list string) :=
  list_to_map
    [ ("personal", ["Hermione"; "Ron"]); ("middle", [""; ""]);
      ("family", ["Granger"; "Weasley"]); ("email", [""; ""]);
      ("event", [""; ""]); ("role", [""; ""]); ("verify", ["Verify"]) ].

Definition two_rows_request : BulkConfirm.Request :=
  BulkConfirm.mkRequest POST two_rows.



(** Resubmissions of one record with all three buttons, with [confirm]
    and [cancel], and with no button. *)
Definition all_buttons_request : BulkConfirm.Request :=
  BulkConfirm.mkRequest POST
    (list_to_map
       [ ("personal", ["Hermione"]); ("middle", [""]); ("family", ["Granger"]);
         ("email", [""]); ("event", [""]); ("role", [""]);
         ("verify", ["Verify"]); ("confirm", ["Confirm"]);
         ("cancel", ["Cancel"]) ]).

Definition cancel_and_confirm_request : BulkConfirm.Request :=
  BulkConfirm.mkRequest POST
    (list_to_map
       [ ("personal", ["Hermione"]); ("middle", [""]); ("family", ["Granger"]);
         ("email", [""]); ("event", [""]); ("role", [""]);
         ("confirm", ["Confirm"]); ("cancel", ["Cancel"]) ]).

Definition no_button_request : BulkConfirm.Request :=
  BulkConfirm.mkRequest POST
    (list_to_map
       [ ("personal", ["Hermione"]); ("middle", [""]); ("family", ["Granger"]);
         ("email", [""]); ("event", [""]); ("role", [""]) ]).

(** The confirmation of the merge of the two Harry Potters, with Harry
    Weasley selected too. *)
Definition merge_with_loner_request : FindDuplicates.Request :=
  FindDuplicates.mkRequest POST ["1"; "2"; "4"; "Confirm"]
    (λ key, if decide (key = ("Harry", "Potter")) then Some "1" else None).

End MoreSamples.

(** * Properties *)

(** ** Grouping *)

Section GroupingFacts.

Implicit Types (groups : list (Key * list Person)) (ps seen : list Person).

Lemma groups_get_cons key k g groups :
  groups_get key ((k, g) :: groups)
  = if decide (k = key) then Some g else groups_get key groups.
Proof.
  unfold groups_get. rewrite filter_cons. simpl.
  destruct (decide (k = key)); reflexivity.
Qed.

Lemma groups_get_append key k person groups :
  groups_get k (groups_append key person groups)
  = if decide (k = key)
    then Some (default [] (groups_get key groups) ++ [person])
    else groups_get k groups.
Proof.
  induction groups as [|[k' g'] rest IH]; simpl.
  - rewrite groups_get_cons. destruct (decide (key = k)), (decide (k = key));
      try congruence; reflexivity.
  - destruct (decide (k' = key)) as [->|Hne].
    + rewrite !groups_get_cons.
      destruct (decide (key = k)) as [<-|]; destruct (decide (key = key));
        try congruence; try reflexivity.
      * destruct (decide (k = key)); [congruence|reflexivity].
    + rewrite !groups_get_cons, IH.
      destruct (decide (k' = k)) as [->|]; destruct (decide (k = key));
        try congruence; try reflexivity.
      destruct (decide (k' = key)); [congruence|reflexivity].
Qed.

Lemma groups_append_keys key person groups :
  (groups_append key person groups).*1
  = if decide (key ∈ groups.*1) then groups.*1 else groups.*1 ++ [key].
Proof.
  induction groups as [|[k' g'] rest IH]; cbn [groups_append].
  - destruct (decide (key ∈ [].*1)) as [H|]; [inversion H|reflexivity].
  - rewrite (fmap_cons fst (k', g') rest). cbn [fst].
    destruct (decide (k' = key)) as [->|Hne].
    + rewrite fmap_cons. cbn [fst].
      rewrite decide_True by apply list_elem_of_here. reflexivity.
    + rewrite fmap_cons, IH. cbn [fst].
      destruct (decide (key ∈ rest.*1)) as [Hin|Hnin].
      * rewrite decide_True by (by apply list_elem_of_further). reflexivity.
      * rewrite decide_False; [reflexivity|].
        rewrite elem_of_cons. intros [?|?]; congruence.
Qed.

Lemma groups_append_NoDup key person groups :
  NoDup groups.*1 → NoDup (groups_append key person groups).*1.
Proof.
  intros Hnd. rewrite groups_append_keys.
  destruct (decide (key ∈ groups.*1)); [done|].
  apply NoDup_app. split_and!; [done| |apply NoDup_singleton].
  intros x Hx. rewrite list_elem_of_singleton. congruence.
Qed.

Lemma fold_group_step_NoDup ps groups :
  NoDup groups.*1 → NoDup (foldl group_step groups ps).*1.
Proof.
  revert groups. induction ps as [|p ps IH]; intros groups Hnd; simpl; [done|].
  apply IH, groups_append_NoDup, Hnd.
Qed.

Lemma groups_get_step key p groups :
  groups_get key (group_step groups p)
  = if decide (key = get_first_last p)
    then Some (default [] (groups_get key groups) ++ [p])
    else groups_get key groups.
Proof.
  unfold group_step. rewrite groups_get_append.
  destruct (decide (key = get_first_last p)) as [->|]; reflexivity.
Qed.

Lemma fold_group_step_get key ps groups :
  groups_get key (foldl group_step groups ps)
  = match filter (λ p, get_first_last p = key) ps with
    | [] => groups_get key groups
    | members => Some (default [] (groups_get key groups) ++ members)
    end.
Proof.
  revert groups. induction ps as [|p ps IH]; intros groups; [done|].
  cbn [foldl]. rewrite IH, groups_get_step, filter_cons.
  destruct (decide (get_first_last p = key)) as [<-|Hne].
  - rewrite decide_True by done.
    destruct (filter _ ps); cbn [default]; unfold id; [done|].
    by rewrite <- app_assoc.
  - rewrite decide_False by congruence. reflexivity.
Qed.

Lemma groups_get_elem_of key g groups :
  NoDup groups.*1 → (key, g) ∈ groups ↔ groups_get key groups = Some g.
Proof.
  induction groups as [|[k' g'] rest IH]; intros Hnd.
  - split; [by intros ?%elem_of_nil | done].
  - rewrite groups_get_cons, elem_of_cons.
    apply NoDup_cons in Hnd as [Hnotin Hnd]. simpl in Hnotin.
    destruct (decide (k' = key)) as [->|Hne].
    + split.
      * intros [Heq|Hin]; [congruence|].
        exfalso. apply Hnotin. apply list_elem_of_fmap. by exists (key, g).
      * intros [= ->]. by left.
    + rewrite <- IH by done. split; [|by right].
      intros [Heq|Hin]; [congruence|done].
Qed.

(** A group of [group_persons] is the non-empty list of all the persons
    with its key, in their order. *)
Lemma group_persons_spec key g ps :
  (key, g) ∈ group_persons ps
  ↔ g = filter (λ p, get_first_last p = key) ps ∧ g ≠ [].
Proof.
  unfold group_persons.
  rewrite groups_get_elem_of by (apply fold_group_step_NoDup; constructor).
  rewrite fold_group_step_get. unfold groups_get at 1 2; simpl.
  destruct (filter _ ps) as [|x l]; split.
  - done.
  - by intros [-> ?].
  - intros [= <-]. done.
  - intros [-> _]. done.
Qed.

Lemma group_persons_keys_NoDup ps : NoDup (group_persons ps).*1.
Proof. apply fold_group_step_NoDup. constructor. Qed.

Lemma group_persons_member key g p ps :
  (key, g) ∈ group_persons ps → p ∈ g → p ∈ ps ∧ get_first_last p = key.
Proof.
  intros [-> _]%group_persons_spec Hp.
  apply list_elem_of_filter in Hp. tauto.
Qed.

Lemma group_persons_covers p ps :
  p ∈ ps → ∃ g, (get_first_last p, g) ∈ group_persons ps ∧ p ∈ g.
Proof.
  intros Hp. exists (filter (λ q, get_first_last q = get_first_last p) ps).
  assert (p ∈ filter (λ q, get_first_last q = get_first_last p) ps) as Hin
    by (by apply list_elem_of_filter).
  split; [|done]. apply group_persons_spec. split; [done|].
  intros Heq. rewrite Heq in Hin. by apply elem_of_nil in Hin.
Qed.

End GroupingFacts.

(** ** The candidates of the duplicate finder *)

Section CandidateFacts.

Implicit Types (ps : list Person) (col : Person → string).

Lemma NoDup_ids_NoDup ps : NoDup (ids ps) → NoDup ps.
Proof. apply NoDup_fmap_1. Qed.

Lemma NoDup_ids_inj ps p q :
  NoDup (ids ps) → p ∈ ps → q ∈ ps → person_id p = person_id q → p = q.
Proof.
  unfold ids. induction ps as [|x ps IH]; intros Hnd Hp Hq Heq.
  - by apply elem_of_nil in Hp.
  - rewrite fmap_cons in Hnd. apply NoDup_cons in Hnd as [Hx Hnd].
    apply elem_of_cons in Hp as [->|Hp]; apply elem_of_cons in Hq as [->|Hq].
    + done.
    + exfalso. apply Hx. rewrite Heq. by apply list_elem_of_fmap_2.
    + exfalso. apply Hx. rewrite <- Heq. by apply list_elem_of_fmap_2.
    + by apply IH.
Qed.

(** A list without repetition has more than one element exactly when it
    holds an element other than a given one of its own. *)
Lemma more_than_one_other {A} (l : list A) (x : A) :
  NoDup l → x ∈ l → (1 < length l)%nat ↔ ∃ y, y ∈ l ∧ y ≠ x.
Proof.
  intros Hnd Hx. split.
  - destruct l as [|a [|b l]]; simpl; [lia|lia|]. intros _.
    apply NoDup_cons in Hnd as [Hnin _].
    apply elem_of_cons in Hx as [->|Hx].
    + exists b. split; [by apply list_elem_of_further, list_elem_of_here|].
      intros ->. apply Hnin, list_elem_of_here.
    + exists a. split; [apply list_elem_of_here|]. by intros ->.
  - intros (y & Hy & Hne).
    destruct l as [|a [|b l]]; simpl; [|exfalso|lia].
    + by apply elem_of_nil in Hx.
    + apply list_elem_of_singleton in Hx, Hy. congruence.
Qed.

Lemma elem_of_dupes_by col v ps :
  v ∈ dupes_by col ps ↔ (1 < count_by col v ps)%nat.
Proof.
  unfold dupes_by. rewrite list_elem_of_filter, elem_of_remove_dups.
  split; [tauto|]. intros Hc. split; [done|].
  unfold count_by in Hc.
  destruct (filter (λ p, col p = v) ps) as [|p l] eqn:Hf; simpl in Hc; [lia|].
  assert (p ∈ filter (λ p, col p = v) ps) as Hp
    by (rewrite Hf; apply list_elem_of_here).
  apply list_elem_of_filter in Hp as [<- Hp]. by apply list_elem_of_fmap_2.
Qed.

(** With primary keys that identify the rows, a value of a column is
    held more than once exactly when some other row holds it too. *)
Lemma count_by_other col ps p :
  NoDup (ids ps) → p ∈ ps →
  (1 < count_by col (col p) ps)%nat
  ↔ ∃ q, q ∈ ps ∧ person_id q ≠ person_id p ∧ col q = col p.
Proof.
  intros Hnd Hp. unfold count_by.
  rewrite (more_than_one_other _ p).
  - split.
    + intros (q & [Hc Hq]%list_elem_of_filter & Hne). exists q.
      split_and!; [done| |done]. intros Heq. apply Hne.
      by apply (NoDup_ids_inj ps).
    + intros (q & Hq & Hne & Hc). exists q. split; [|congruence].
      by apply list_elem_of_filter.
  - by apply NoDup_filter, NoDup_ids_NoDup.
  - by apply list_elem_of_filter.
Qed.

Lemma order_by_name_elem_of p ps : p ∈ order_by_name ps ↔ p ∈ ps.
Proof. unfold order_by_name. by rewrite merge_sort_Permutation. Qed.

Lemma elem_of_dupes p ps :
  p ∈ dupes ps
  ↔ p ∈ ps ∧ personal p ∈ dupes_personal ps ∧ family p ∈ dupes_family ps.
Proof.
  unfold dupes. rewrite order_by_name_elem_of, !list_elem_of_filter. tauto.
Qed.

(** The persons the scan puts in a group are its candidates. *)
Lemma scan_groups_member st p :
  (∃ key g, (key, g) ∈ scan_groups st ∧ p ∈ g) ↔ p ∈ dupes (persons st).
Proof.
  unfold scan_groups. split.
  - intros (key & g & Hg & Hp). by eapply group_persons_member.
  - intros Hp. destruct (group_persons_covers _ _ Hp) as (g & Hg & Hin). eauto.
Qed.

End CandidateFacts.

(** ** The duplicate finder *)

Module FinderFacts.
Import FindDuplicates Samples.

Lemma rendered_groups_GET req st :
  method req = GET → rendered_groups (person_find_duplicates req st) = scan_groups st.
Proof. unfold person_find_duplicates. by intros ->. Qed.

Lemma elem_of_more_than_one kv groups :
  kv ∈ more_than_one groups ↔ (1 < length kv.2)%nat ∧ kv ∈ groups.
Proof.
  unfold more_than_one.
  apply (list_elem_of_filter (λ kv : Key * list Person, (1 < length kv.2)%nat)).
Qed.

Lemma confirm_groups_member req st key g p :
  (key, g) ∈ confirm_groups req st → p ∈ g →
  p ∈ selected_dupes req st ∧ get_first_last p = key.
Proof.
  unfold confirm_groups. intros [_ Hg]%elem_of_more_than_one Hp.
  by eapply group_persons_member.
Qed.

Example scan_hogwarts :
  rendered_groups (person_find_duplicates scan_request hogwarts)
  = [ (("Harry", "Potter"),
       [ mkPerson 1 "Harry" None "Potter" (Some "harry@hogwarts.edu");
         mkPerson 4 "Harry" (Some "J.") "Potter" None ]) ].
Proof. vm_compute. reflexivity. Qed.

(** C1. The duplicate finder selects exactly the persons whose personal
    name is held by another person of the collection and whose family name
    is held by another (maybe different) person; with two persons named
    Harry Potter and one Harry Weasley, no other person having the family
    name Weasley, both Harry Potters are in one group and Harry Weasley is
    in none. *)
Theorem find_duplicates_selects (req : Request) (st : Store) :
  method req = GET →
  NoDup (ids (persons st)) →
  let groups := rendered_groups (person_find_duplicates req st) in
  (∀ p, (∃ key g, (key, g) ∈ groups ∧ p ∈ g)
        ↔ p ∈ persons st
          ∧ (∃ q, q ∈ persons st ∧ person_id q ≠ person_id p
                  ∧ personal q = personal p)
          ∧ (∃ q, q ∈ persons st ∧ person_id q ≠ person_id p
                  ∧ family q = family p))
  ∧ (∀ hp1 hp2 hw,
       hp1 ∈ persons st → hp2 ∈ persons st → hw ∈ persons st →
       person_id hp1 ≠ person_id hp2 →
       personal hp1 = "Harry" → family hp1 = "Potter" →
       personal hp2 = "Harry" → family hp2 = "Potter" →
       personal hw = "Harry" → family hw = "Weasley" →
       (∀ q, q ∈ persons st → family q = "Weasley" → person_id q = person_id hw) →
       (∃ g, (("Harry", "Potter"), g) ∈ groups ∧ hp1 ∈ g ∧ hp2 ∈ g)
       ∧ ¬ (∃ key g, (key, g) ∈ groups ∧ hw ∈ g)).
Proof.
  intros Hget Hnd groups. subst groups. rewrite rendered_groups_GET by done.
  assert (∀ p, (∃ key g, (key, g) ∈ scan_groups st ∧ p ∈ g)
        ↔ p ∈ persons st
          ∧ (∃ q, q ∈ persons st ∧ person_id q ≠ person_id p
                  ∧ personal q = personal p)
          ∧ (∃ q, q ∈ persons st ∧ person_id q ≠ person_id p
                  ∧ family q = family p)) as Hsel.
  { intros p. rewrite scan_groups_member, elem_of_dupes.
    unfold dupes_personal, dupes_family. rewrite !elem_of_dupes_by.
    split.
    - intros (Hp & H1 & H2).
      apply (count_by_other personal) in H1; [|done..].
      apply (count_by_other family) in H2; [|done..]. done.
    - intros (Hp & H1 & H2). split_and!; [done| |].
      + by apply (count_by_other personal).
      + by apply (count_by_other family). }
  split; [exact Hsel|].
  intros hp1 hp2 hw H1 H2 Hw Hne Hp1 Hf1 Hp2 Hf2 Hpw Hfw Honly. split.
  - assert (p1 : ∃ key g, (key, g) ∈ scan_groups st ∧ hp1 ∈ g).
    { apply Hsel. split_and!; [done|exists hp2..]; split_and!; congruence. }
    assert (p2 : ∃ key g, (key, g) ∈ scan_groups st ∧ hp2 ∈ g).
    { apply Hsel. split_and!; [done|exists hp1..]; split_and!; congruence. }
    apply scan_groups_member in p1, p2.
    exists (filter (λ p, get_first_last p = ("Harry", "Potter")) (dupes (persons st))).
    assert (get_first_last hp1 = ("Harry", "Potter")) as K1
      by (unfold get_first_last; congruence).
    assert (get_first_last hp2 = ("Harry", "Potter")) as K2
      by (unfold get_first_last; congruence).
    assert (hp1 ∈ filter (λ p, get_first_last p = ("Harry", "Potter"))
                    (dupes (persons st))) as G1 by (by apply list_elem_of_filter).
    split_and!; [|done|by apply list_elem_of_filter].
    apply group_persons_spec. split; [done|].
    intros Heq. rewrite Heq in G1. by apply elem_of_nil in G1.
  - intros Hin. apply Hsel in Hin as (_ & _ & q & Hq & Hneq & Hfam).
    apply Hneq, Honly; [done|congruence].
Qed.

Lemma find_duplicates_selects_witness :
  let hp1 := mkPerson 1 "Harry" None "Potter" (Some "harry@hogwarts.edu") in
  let hp2 := mkPerson 4 "Harry" (Some "J.") "Potter" None in
  let hw := mkPerson 2 "Harry" None "Weasley" None in
  let groups := rendered_groups (person_find_duplicates scan_request hogwarts) in
  (∃ g, (("Harry", "Potter"), g) ∈ groups ∧ hp1 ∈ g ∧ hp2 ∈ g)
  ∧ ¬ (∃ key g, (key, g) ∈ groups ∧ hw ∈ g).
Proof.
  intros hp1 hp2 hw groups.
  assert (NoDup (ids (persons hogwarts))) as Hnd
    by compute_done.
  apply (proj2 (find_duplicates_selects scan_request hogwarts eq_refl Hnd) hp1 hp2 hw);
    try reflexivity;
    try compute_done.
  intros q Hq Hf. cbn in Hq.
  repeat (apply elem_of_cons in Hq as [->|Hq]); try done.
  by apply elem_of_nil in Hq.
Defined.

(** C2. Any two members of a group, on the scan and on the confirmation
    path, have the same personal name and the same family name. *)
Theorem groups_share_names (req : Request) (st : Store)
    (key : Key) (g : list Person) (p q : Person) :
  (key, g) ∈ scan_groups st ∨ (key, g) ∈ confirm_groups req st →
  p ∈ g → q ∈ g →
  personal p = personal q ∧ family p = family q.
Proof.
  intros Hg Hp Hq.
  assert (get_first_last p = key ∧ get_first_last q = key) as [Kp Kq].
  { destruct Hg as [Hg|Hg].
    - split; by eapply group_persons_member.
    - split; by eapply confirm_groups_member. }
  unfold get_first_last in Kp, Kq. split; congruence.
Qed.

Lemma groups_share_names_witness :
  let hp1 := mkPerson 1 "Harry" None "Potter" (Some "harry@hogwarts.edu") in
  let hp2 := mkPerson 4 "Harry" (Some "J.") "Potter" None in
  personal hp1 = personal hp2 ∧ family hp1 = family hp2.
Proof.
  intros hp1 hp2.
  apply (groups_share_names scan_request hogwarts ("Harry", "Potter") [hp1; hp2]).
  - left. compute_done.
  - apply list_elem_of_here.
  - apply list_elem_of_further, list_elem_of_here.
Defined.

End FinderFacts.

(** ** The choice of the primary *)

Module PrimaryFacts.
Import FindDuplicates.

Lemma list_remove_subseteq x l : list_remove x l ⊆ l.
Proof.
  induction l as [|y l IH]; simpl; [done|].
  destruct (decide (person_id y = person_id x)).
  - by apply list_subseteq_cons.
  - intros z [->|Hz]%elem_of_cons.
    + apply list_elem_of_here.
    + apply list_elem_of_further, IH, Hz.
Qed.

(** The loop only ever takes persons out of the group. *)
Lemma find_primary_loop_subseteq rounds i primary_id primary group :
  (find_primary_loop rounds i primary_id primary group).2 ⊆ group.
Proof.
  revert i primary group.
  induction rounds as [|rounds IH]; intros i primary group; simpl; [done|].
  destruct (group !! i) as [person|]; [|done].
  destruct (decide (person_id person = primary_id)); [|apply IH].
  etrans; [apply IH|apply list_remove_subseteq].
Qed.

(** A primary the loop returns is the one it started with or a member
    of the group with the posted key. *)
Lemma find_primary_loop_Some rounds i primary_id primary group x :
  (find_primary_loop rounds i primary_id primary group).1 = Some x →
  primary = Some x ∨ (x ∈ group ∧ person_id x = primary_id).
Proof.
  revert i primary group.
  induction rounds as [|rounds IH]; intros i primary group; simpl; [by left|].
  destruct (group !! i) as [person|] eqn:Hi; [|by left].
  destruct (decide (person_id person = primary_id)) as [Heq|]; [|apply IH].
  intros [[= ->]|[Hx Hid]]%IH; right.
  - split; [|done]. by eapply list_elem_of_lookup_2.
  - split; [|done]. by apply list_remove_subseteq in Hx.
Qed.

(** Without a member of the posted key the loop changes nothing. *)
Lemma find_primary_loop_absent rounds i primary_id primary group :
  primary_id ∉ ids group →
  find_primary_loop rounds i primary_id primary group = (primary, group).
Proof.
  intros Hnot. revert i.
  induction rounds as [|rounds IH]; intros i; simpl; [done|].
  destruct (group !! i) as [person|] eqn:Hi; [|done].
  destruct (decide (person_id person = primary_id)) as [Heq|]; [|apply IH].
  exfalso. apply Hnot. unfold ids. rewrite <- Heq.
  apply list_elem_of_fmap_2. by eapply list_elem_of_lookup_2.
Qed.

Lemma find_primary_loop_found rounds i primary_id primary group :
  is_Some primary →
  is_Some (find_primary_loop rounds i primary_id primary group).1.
Proof.
  revert i primary group.
  induction rounds as [|rounds IH]; intros i primary group Hp; simpl; [done|].
  destruct (group !! i) as [person|]; [|done].
  destruct (decide (person_id person = primary_id)); apply IH; [by eexists|done].
Qed.

(** A member with the posted key within reach of the iterator is found. *)
Lemma find_primary_loop_reaches rounds i j primary_id primary group x :
  (i ≤ j < i + rounds)%nat → group !! j = Some x → person_id x = primary_id →
  is_Some (find_primary_loop rounds i primary_id primary group).1.
Proof.
  revert i primary group.
  induction rounds as [|rounds IH]; intros i primary group Hj Hx Hid; [lia|].
  simpl. destruct (group !! i) as [person|] eqn:Hi.
  - destruct (decide (person_id person = primary_id)) as [Heq|Hne].
    + apply find_primary_loop_found. by eexists.
    + apply IH; [|done..]. assert (i ≠ j) by (intros ->; congruence). lia.
  - apply lookup_ge_None in Hi. apply lookup_lt_Some in Hx. lia.
Qed.

Lemma find_primary_absent primary_id group :
  primary_id ∉ ids group → find_primary primary_id group = (None, group).
Proof. apply find_primary_loop_absent. Qed.

Lemma find_primary_None primary_id group :
  (find_primary primary_id group).1 = None ↔ primary_id ∉ ids group.
Proof.
  split.
  - intros Hnone [x [-> Hx]]%list_elem_of_fmap.
    apply list_elem_of_lookup in Hx as [j Hj].
    destruct (find_primary_loop_reaches (length group) 0 j (person_id x) None group x)
      as [y Hy]; [|done..|].
    + apply lookup_lt_Some in Hj. lia.
    + unfold find_primary in Hnone. congruence.
  - intros Hnot. by rewrite find_primary_absent.
Qed.

Lemma find_primary_Some primary_id group primary :
  (find_primary primary_id group).1 = Some primary →
  primary ∈ group ∧ person_id primary = primary_id.
Proof.
  intros [[=]|H]%find_primary_loop_Some. done.
Qed.

Lemma find_primary_subseteq primary_id group :
  (find_primary primary_id group).2 ⊆ group.
Proof. apply find_primary_loop_subseteq. Qed.

(** With distinct primary keys the loop is a search and a filter. *)
Lemma find_primary_distinct primary_id group primary :
  NoDup (ids group) → primary ∈ group → person_id primary = primary_id →
  (find_primary primary_id group).1 = Some primary.
Proof.
  intros Hnd Hin Hid.
  destruct (find_primary primary_id group).1 as [y|] eqn:Hy.
  - apply find_primary_Some in Hy as [Hy1 Hy2]. f_equal.
    apply (NoDup_ids_inj group); [done..|congruence].
  - apply find_primary_None in Hy. exfalso. apply Hy. rewrite <- Hid.
    by apply list_elem_of_fmap_2.
Qed.

End PrimaryFacts.

(** ** The merge of the confirmed groups *)

Module MergeFacts.
Import FindDuplicates PrimaryFacts FinderFacts Samples.

Lemma person_find_duplicates_confirm req st :
  method req = POST → query_error req = None → "Confirm" ∈ POST_keys req →
  person_find_duplicates req st = merge_groups req (confirm_groups req st) st.
Proof.
  intros Hm Hq Hc. unfold person_find_duplicates. rewrite Hm, Hq.
  by rewrite decide_True.
Qed.


(** The merger deletes the duplicates it is given and nothing else. *)
Lemma merge_model_objects_persons primary group st st' :
  merge_model_objects primary group st = inr st' →
  persons st' = filter (λ p, person_id p ∉ ids group) (persons st).
Proof.
  unfold merge_model_objects.
  destruct (decide (person_id primary ∈ ids group)); [done|].
  by intros [= <-].
Qed.

(** One round of the loop, when the posted primary is read. *)
Lemma merge_groups_cons req key group rest st v primary_id :
  POST_primary req key = Some v → Py.int_of_str v = Some primary_id →
  merge_groups req ((key, group) :: rest) st
  = match find_primary primary_id group with
    | (None, _) =>
        mkOutcome (Redirect "person_find_duplicates") [PrimaryNotValid primary_id] st
    | (Some primary, group') =>
        match merge_model_objects primary group' st with
        | inl (TypeError e) =>
            mkOutcome (Redirect "person_find_duplicates") [MergeFailed e] st
        | inl e => mkOutcome (Uncaught e) [] st
        | inr st' => merge_groups req rest st'
        end
    end.
Proof. intros Hv Hn. cbn [merge_groups Py.int]. by rewrite Hv, Hn. Qed.

(** Groups merged with success hand their store to the groups after
    them. *)
Lemma merge_groups_app req pre rest st st1 :
  merge_groups req pre st = merged st1 →
  merge_groups req (pre ++ rest) st = merge_groups req rest st1.
Proof.
  revert st. induction pre as [|[key group] pre IH]; intros st.
  - cbn [merge_groups]. unfold merged. by intros [= ->].
  - rewrite <- app_comm_cons. cbn [merge_groups].
    destruct (POST_primary req key) as [v|]; [|done].
    destruct (Py.int (Py.PyStr v)) as [[]|primary_id]; try done.
    destruct (find_primary primary_id group) as [[primary|] group']; [|done].
    destruct (merge_model_objects primary group' st) as [[]|st']; try done.
    apply IH.
Qed.

(** A person the loop deletes has the primary key of a member of one of
    the groups. *)
Lemma merge_groups_deletes req groups st p :
  p ∈ persons st → p ∉ persons (store (merge_groups req groups st)) →
  ∃ key g, (key, g) ∈ groups ∧ person_id p ∈ ids g.
Proof.
  revert st. induction groups as [|[key group] rest IH]; intros st Hin Hout.
  - done.
  - cbn [merge_groups] in Hout.
    destruct (POST_primary req key) as [v|]; [|done].
    destruct (Py.int (Py.PyStr v)) as [[]|primary_id]; try done.
    pose proof (find_primary_subseteq primary_id group) as Hsub.
    destruct (find_primary primary_id group) as [[primary|] group']; [|done].
    destruct (merge_model_objects primary group' st) as [[]|st'] eqn:Hm; try done.
    apply merge_model_objects_persons in Hm.
    destruct (decide (person_id p ∈ ids group')) as [Hdup|Hkeep].
    + exists key, group. split; [apply list_elem_of_here|].
      apply list_elem_of_fmap in Hdup as (x & -> & Hx).
      apply list_elem_of_fmap_2, Hsub, Hx.
    + destruct (IH st') as (key' & g & Hg & Hp); [|done|].
      * rewrite Hm. by apply list_elem_of_filter.
      * exists key', g. split; [by apply list_elem_of_further|done].
Qed.

(** The loop stops at a group whose posted primary is not one of its
    members: that group and the groups after it are not merged. *)
Lemma merge_groups_stray_primary req pre key group rest st st1 v primary_id :
  merge_groups req pre st = merged st1 →
  POST_primary req key = Some v → Py.int_of_str v = Some primary_id →
  primary_id ∉ ids group →
  merge_groups req (pre ++ (key, group) :: rest) st
  = mkOutcome (Redirect "person_find_duplicates") [PrimaryNotValid primary_id] st1.
Proof.
  intros Hpre Hv Hn Hnot.
  rewrite (merge_groups_app _ _ _ _ _ Hpre).
  rewrite (merge_groups_cons _ _ _ _ _ _ _ Hv Hn).
  by rewrite find_primary_absent.
Qed.

(** In a confirmed request within the model whose query raises nothing,
    when the posted primary of the first group handled is not one of its
    members, the view answers with the message
    "Primary not valid: ... not in group" and redirects; nothing is merged
    and the store is unchanged. *)
Lemma stray_primary_refused (req : Request) (st : Store)
    (rest : list (Key * list Person)) (key : Key) (group : list Person)
    (v : string) (primary_id : Z) :
  method req = POST → within_model req → query_error req = None →
  "Confirm" ∈ POST_keys req →
  confirm_groups req st = (key, group) :: rest →
  POST_primary req key = Some v → Py.int_of_str v = Some primary_id →
  primary_id ∉ ids group →
  person_find_duplicates req st
  = mkOutcome (Redirect "person_find_duplicates") [PrimaryNotValid primary_id] st.
Proof.
  intros Hm _ Hq Hc Hgroups Hv Hn Hnot.
  rewrite person_find_duplicates_confirm, Hgroups by done.
  by apply (merge_groups_stray_primary req [] key group rest st st v).
Qed.

Example stray_primary_at_hogwarts :
  person_find_duplicates stray_primary_request hogwarts
  = mkOutcome (Redirect "person_find_duplicates") [PrimaryNotValid 2] hogwarts.
Proof. vm_compute. reflexivity. Qed.

(** A posted primary that is among the persons of its group is taken out
    of the list before the merger is called: the rest is merged into it
    and the store changes. *)
Lemma primary_in_group_is_merged :
  let o := person_find_duplicates merge_request hogwarts in
  ids <$> (confirm_groups merge_request hogwarts).*2 = [[1; 4]]
  ∧ POST_primary merge_request ("Harry", "Potter") = Some "1"
  ∧ find_primary 1
      [ mkPerson 1 "Harry" None "Potter" (Some "harry@hogwarts.edu");
        mkPerson 4 "Harry" (Some "J.") "Potter" None ]
    = (Some (mkPerson 1 "Harry" None "Potter" (Some "harry@hogwarts.edu")),
       [ mkPerson 4 "Harry" (Some "J.") "Potter" None ])
  ∧ response o = Redirect "person_find_duplicates"
  ∧ messages o = [MergeSuccess]
  ∧ ids (persons (store o)) = [1; 2; 3]
  ∧ awards (store o) = [mkAward 1 "instructor"; mkAward 1 "instructor"]
  ∧ store o ≠ hogwarts.
Proof. cbv zeta. split_and!; compute_done. Qed.

(** C3. A merge in which the primary is among its own duplicates fails
    with a [ValidationError] and leaves the store unchanged: the merger
    returns the exception and no store, and a request whose loop hands
    such a list to the merger ends in that exception, which the view
    does not catch, with the store as it was when the loop reached the
    group. *)
Theorem primary_among_duplicates_rejected (primary : Person)
    (alias_objects : list Person) (st : Store) :
  person_id primary ∈ ids alias_objects →
  merge_model_objects primary alias_objects st
  = inl (ValidationError "primary not in group")
  ∧ (∀ st', merge_model_objects primary alias_objects st ≠ inr st')
  ∧ (∀ req key group rest v primary_id,
       POST_primary req key = Some v → Py.int_of_str v = Some primary_id →
       find_primary primary_id group = (Some primary, alias_objects) →
       merge_groups req ((key, group) :: rest) st
       = mkOutcome (Uncaught (ValidationError "primary not in group")) [] st).
Proof.
  intros Hin.
  assert (merge_model_objects primary alias_objects st
          = inl (ValidationError "primary not in group")) as Hm.
  { unfold merge_model_objects. by rewrite decide_True. }
  split_and!; [done|by rewrite Hm|].
  intros req key group rest v primary_id Hv Hn Hfind.
  rewrite (merge_groups_cons _ _ _ _ _ _ _ Hv Hn). by rewrite Hfind, Hm.
Qed.

Lemma primary_among_duplicates_rejected_witness :
  let primary := mkPerson 1 "Harry" None "Potter" (Some "harry@hogwarts.edu") in
  let other := mkPerson 4 "Harry" (Some "J.") "Potter" None in
  merge_model_objects primary [primary; other] hogwarts
  = inl (ValidationError "primary not in group")
  ∧ (∀ st', merge_model_objects primary [primary; other] hogwarts ≠ inr st')
  ∧ find_primary 1 [primary; primary; other] = (Some primary, [primary; other])
  ∧ merge_groups merge_request
      [(("Harry", "Potter"), [primary; primary; other])] hogwarts
    = mkOutcome (Uncaught (ValidationError "primary not in group")) [] hogwarts.
Proof.
  intros primary other.
  destruct (primary_among_duplicates_rejected primary [primary; other] hogwarts
              ltac:(compute_done)) as (Hfails & Hnone & Hview).
  split_and!; [exact Hfails|exact Hnone|reflexivity|].
  apply (Hview merge_request ("Harry", "Potter") [primary; primary; other] []
           "1" 1); reflexivity.
Defined.

(** C4 at a request of two groups: the first is merged, the second is
    refused, and the first merge stays in the store. *)
Lemma merge_is_not_all_or_nothing :
  let o := person_find_duplicates two_groups_request hogwarts_and_burrow in
  ids <$> (confirm_groups two_groups_request hogwarts_and_burrow).*2
  = [[1; 4]; [5; 6]]
  ∧ response o = Redirect "person_find_duplicates"
  ∧ messages o = [PrimaryNotValid 7]
  ∧ ids (persons hogwarts_and_burrow) = [1; 2; 3; 4; 5; 6]
  ∧ ids (persons (store o)) = [1; 2; 3; 5; 6]
  ∧ store o ≠ hogwarts_and_burrow.
Proof. cbv zeta. split_and!; compute_done. Qed.

End MergeFacts.

(** ** The resubmission of the staged records *)

Module ResubmitFacts.
Import BulkConfirm Samples.

Implicit Types (persons_tasks : list Staged.t)
  (records : list (string * string * string * string * string * string)).

Lemma data_update_length post : length (data_update post) = shortest post.
Proof. unfold data_update, shortest. by rewrite !length_zip_with. Qed.

Lemma update_loop_length k records persons_tasks :
  length (update_loop k records persons_tasks).1 = length persons_tasks.
Proof.
  revert k persons_tasks.
  induction records as [|record rest IH]; intros k persons_tasks; simpl; [done|].
  destruct (decide (k < length persons_tasks)%nat); [|done].
  by rewrite IH, length_insert.
Qed.

(** The loop leaves alone what lies before its index. *)
Lemma update_loop_lookup_before k j records persons_tasks :
  (j < k)%nat →
  (update_loop k records persons_tasks).1 !! j = persons_tasks !! j.
Proof.
  revert k persons_tasks.
  induction records as [|record rest IH]; intros k persons_tasks Hj; simpl; [done|].
  destruct (decide (k < length persons_tasks)%nat); [|done].
  rewrite IH by lia. apply list_lookup_insert_ne. lia.
Qed.

(** The loop leaves alone what lies after the last record. *)
Lemma update_loop_lookup_after k j records persons_tasks :
  (k + length records ≤ j)%nat →
  (update_loop k records persons_tasks).1 !! j = persons_tasks !! j.
Proof.
  revert k persons_tasks.
  induction records as [|record rest IH]; intros k persons_tasks Hj; simpl; [done|].
  simpl in Hj. destruct (decide (k < length persons_tasks)%nat); [|done].
  rewrite IH by lia. apply list_lookup_insert_ne. lia.
Qed.

(** Within the staged list, entry [k + j] becomes the [j]-th record. *)
Lemma update_loop_lookup_at k j records persons_tasks record :
  records !! j = Some record → (k + j < length persons_tasks)%nat →
  (update_loop k records persons_tasks).1 !! (k + j)%nat
  = Some (updated_record record).
Proof.
  revert k j persons_tasks.
  induction records as [|r rest IH]; intros k j persons_tasks Hr Hlt; [done|].
  simpl. rewrite decide_True by lia.
  destruct j as [|j]; simpl in Hr.
  - injection Hr as ->. rewrite Nat.add_0_r, update_loop_lookup_before by lia.
    apply list_lookup_insert_eq. lia.
  - replace (k + S j)%nat with (S k + j)%nat by lia.
    apply IH; [done|]. rewrite length_insert. lia.
Qed.

(** Without an assignment past the end, the loop ends without
    exception. *)
Lemma update_loop_no_exception k records persons_tasks :
  (k + length records ≤ length persons_tasks)%nat →
  (update_loop k records persons_tasks).2 = None.
Proof.
  revert k persons_tasks.
  induction records as [|r rest IH]; intros k persons_tasks Hlen; simpl; [done|].
  simpl in Hlen. rewrite decide_True by lia.
  apply IH. rewrite length_insert. lia.
Qed.

Example resubmit_staged_batch :
  update_staged resubmission staged_batch
  = ([ Staged.mk "Hermione" None "Granger" None (Some "") (Some "") None;
       Staged.mk "Ron" (Some "B.") "Weasley" None None None (Some []) ],
     None).
Proof. vm_compute. reflexivity. Qed.

(** C8, as the code has it.  A resubmitted record has [middle] and [email]
    absent when the posted value is empty, while [event] and [role] take
    the posted value as it is, the empty string included; its [errors] are
    reset. *)
Theorem resubmitted_fields (post : gmap string (list string))
    (persons_tasks : list Staged.t) (k : nat)
    (personal middle family email event role : string) :
  data_update post !! k = Some (personal, middle, family, email, event, role) →
  (k < length persons_tasks)%nat →
  ∃ r, (update_staged post persons_tasks).1 !! k = Some r
       ∧ Staged.personal r = personal ∧ Staged.family r = family
       ∧ (middle = "" → Staged.middle r = None)
       ∧ (middle ≠ "" → Staged.middle r = Some middle)
       ∧ (email = "" → Staged.email r = None)
       ∧ (email ≠ "" → Staged.email r = Some email)
       ∧ Staged.event r = Some event
       ∧ Staged.role r = Some role
       ∧ Staged.errors r = None.
Proof.
  intros Hrec Hk. eexists. split.
  - unfold update_staged.
    apply (update_loop_lookup_at 0 k _ _ _ Hrec). simpl. lia.
  - cbn. split_and!; try done.
    + by intros ->.
    + by destruct middle.
    + by intros ->.
    + by destruct email.
Qed.

Lemma resubmitted_fields_witness :
  ∃ r, (update_staged resubmission staged_batch).1 !! 0%nat = Some r
       ∧ Staged.personal r = "Hermione" ∧ Staged.family r = "Granger"
       ∧ ("" = "" → Staged.middle r = None)
       ∧ ("" ≠ "" → Staged.middle r = Some "")
       ∧ ("" = "" → Staged.email r = None)
       ∧ ("" ≠ "" → Staged.email r = Some "")
       ∧ Staged.event r = Some ""
       ∧ Staged.role r = Some ""
       ∧ Staged.errors r = None.
Proof.
  apply (resubmitted_fields resubmission staged_batch 0
           "Hermione" "" "Granger" "" "" ""); [compute_done|simpl; lia].
Defined.

(** Against C8 as it is worded: an [event] and a [role] posted empty are
    stored as the empty string, not as [None]. *)
Lemma empty_event_and_role_are_kept :
  QueryDict.getlist "event" resubmission = [""]
  ∧ QueryDict.getlist "role" resubmission = [""]
  ∧ Staged.event <$> (update_staged resubmission staged_batch).1 !! 0%nat
    = Some (Some "")
  ∧ Staged.role <$> (update_staged resubmission staged_batch).1 !! 0%nat
    = Some (Some "")
  ∧ Staged.event <$> (update_staged resubmission staged_batch).1 !! 0%nat
    ≠ Some None
  ∧ Staged.role <$> (update_staged resubmission staged_batch).1 !! 0%nat
    ≠ Some None.
Proof. split_and!; compute_done. Qed.

(** C10. The resubmission overwrites staged records only below the length
    of the shortest of the six posted lists: a record at that index or
    beyond keeps every field and its errors, and the list keeps its
    length. *)
Theorem resubmission_frame (post : gmap string (list string))
    (persons_tasks : list Staged.t) (k : nat) :
  (shortest post ≤ k)%nat →
  (update_staged post persons_tasks).1 !! k = persons_tasks !! k
  ∧ length (update_staged post persons_tasks).1 = length persons_tasks.
Proof.
  intros Hk. unfold update_staged. split.
  - apply update_loop_lookup_after. rewrite data_update_length. lia.
  - apply update_loop_length.
Qed.

Lemma resubmission_frame_witness :
  (update_staged resubmission staged_batch).1 !! 1%nat = staged_batch !! 1%nat
  ∧ length (update_staged resubmission staged_batch).1 = length staged_batch.
Proof. apply (resubmission_frame resubmission staged_batch 1). compute_done. Defined.

End ResubmitFacts.

(** ** The upload of a file *)

Module BulkAddFacts.
Import BulkAdd Samples.

Section Upload.

Variable DEFAULT_CHARSET : string.
Variable upload_person_task_csv :
  string → string → exn + (list Staged.t * list string).

Local Abbreviation view := (person_bulk_add DEFAULT_CHARSET upload_person_task_csv).
Local Abbreviation parse req :=
  (upload_person_task_csv (charset_of DEFAULT_CHARSET req) (file req)).

(** The view redirects to the confirmation only from the branch that
    stages the records. *)
Lemma redirect_only_when_staged req session persons_tasks :
  response (view req session) = Redirect "person_bulk_add_confirmation" →
  BulkAdd.session (view req session) = Some persons_tasks →
  method req = POST ∧ form_is_valid req = true
  ∧ parse req = inr (persons_tasks, []).
Proof.
  unfold person_bulk_add.
  destruct (method req); [done|].
  destruct (form_is_valid req); [|done].
  destruct (parse req) as [[]|[pts [|f fs]]]; try done.
  simpl. by intros _ [= ->].
Qed.

(** C7. For an uploaded file, a malformed file and a file that cannot be
    decoded are each answered with an error message on the form page,
    nothing being staged; the records are staged and the user is sent to
    the confirmation exactly when the file is read and no required column
    is missing; missing columns are reported by name. *)
Theorem upload_outcomes (req : Request) (session : option (list Staged.t)) :
  method req = POST → form_is_valid req = true →
  let o := view req session in
  let charset := charset_of DEFAULT_CHARSET req in
  (∀ e, parse req = inl (CsvError e) →
        o = mkOutcome (RenderForm DEFAULT_CHARSET) [ErrorProcessing e] session)
  ∧ (parse req = inl UnicodeDecodeError →
        o = mkOutcome (RenderForm DEFAULT_CHARSET) [ProvideEncoding charset] session)
  ∧ (∀ persons_tasks,
        response o = Redirect "person_bulk_add_confirmation"
        ∧ BulkAdd.session o = Some persons_tasks
        ↔ parse req = inr (persons_tasks, []))
  ∧ (∀ persons_tasks missing,
        parse req = inr (persons_tasks, missing) → missing ≠ [] →
        o = mkOutcome (RenderForm DEFAULT_CHARSET)
              [RequiredFieldsNotFound (String.concat ", " missing)] session).
Proof.
  intros Hm Hv o charset. split_and!.
  - intros e He. subst o. unfold person_bulk_add. by rewrite Hm, Hv, He.
  - intros He. subst o. unfold person_bulk_add. by rewrite Hm, Hv, He.
  - intros persons_tasks. split.
    + intros [Hr Hs]. by eapply redirect_only_when_staged.
    + intros He. subst o. unfold person_bulk_add. by rewrite Hm, Hv, He.
  - intros persons_tasks missing He Hmiss. subst o. unfold person_bulk_add.
    rewrite Hm, Hv, He. by destruct missing.
Qed.

End Upload.

Example upload_reads_file :
  person_bulk_add "utf-8" Upload.upload_person_task_csv upload_request None
  = mkOutcome (Redirect "person_bulk_add_confirmation") []
      (Some [ Staged.mk "Hermione" None "Granger" (Some "hermione@granger.co.uk")
                (Some "2014-alpha-event") (Some "instructor") None ]).
Proof. vm_compute. reflexivity. Qed.

Lemma upload_outcomes_witness :
  let o := person_bulk_add "utf-8" Upload.upload_person_task_csv upload_request None in
  response o = Redirect "person_bulk_add_confirmation"
  ∧ BulkAdd.session o = Some staged_hermione
  ↔ Upload.upload_person_task_csv (charset_of "utf-8" upload_request)
      (file upload_request) = inr (staged_hermione, []).
Proof.
  exact (proj1 (proj2 (proj2
    (upload_outcomes "utf-8" Upload.upload_person_task_csv upload_request None
       eq_refl eq_refl))) staged_hermione).
Defined.

End BulkAddFacts.

(** ** The commit of the staged records *)

Module CommitFacts.
Import BulkConfirm Samples.

Section Commit.

Variable verify_upload_person_task : Store → list Staged.t → list Staged.t * bool.
Variable create_uploaded_persons_tasks :
  Store → list Staged.t → exn + (list Person * list Task * Store).

Local Abbreviation view :=
  (person_bulk_add_confirmation verify_upload_person_task
     create_uploaded_persons_tasks).

(** The branch of the view that saves. *)
Lemma confirmation_saves req persons_tasks updated st :
  persons_tasks ≠ [] → method req = POST →
  update_staged (POST_data req) persons_tasks = (updated, None) →
  QueryDict.truthy "verify" (POST_data req) = false →
  QueryDict.truthy "confirm" (POST_data req) = true →
  QueryDict.truthy "cancel" (POST_data req) = false →
  view req (Some persons_tasks) st
  = let verified := (verify_upload_person_task st updated).1 in
    match create_uploaded_persons_tasks st verified with
    | inl e =>
        if is_commit_error e then
          let reverified := (verify_upload_person_task st verified).1 in
          mkOutcome (RenderResults reverified 400) [ErrorSaving e]
            (Some reverified) st
        else mkOutcome (Uncaught e) [] (Some persons_tasks) st
    | inr (persons_created, tasks_created, st') =>
        mkOutcome (Redirect "person_bulk_add")
          [Uploaded (length persons_created) (length tasks_created)] None st'
    end.
Proof.
  intros Hne Hm Hup Hv Hc Hx. unfold person_bulk_add_confirmation.
  destruct persons_tasks as [|r rs]; [done|].
  rewrite Hm, Hup, Hv, Hc, Hx. reflexivity.
Qed.

(** C6. When the commit of the staged batch raises an [IntegrityError], an
    [ObjectDoesNotExist] or an [InternalError], the store is as before,
    the error is reported, the records are verified again and shown with
    status 400, and the session keeps them; when the commit succeeds the
    staging area is cleared and the numbers of persons and tasks created
    are reported; and the staging area is cleared only then. *)
Theorem commit_outcomes (req : Request) (persons_tasks updated : list Staged.t)
    (st : Store) :
  persons_tasks ≠ [] → method req = POST →
  update_staged (POST_data req) persons_tasks = (updated, None) →
  QueryDict.truthy "verify" (POST_data req) = false →
  QueryDict.truthy "confirm" (POST_data req) = true →
  QueryDict.truthy "cancel" (POST_data req) = false →
  let o := view req (Some persons_tasks) st in
  let verified := (verify_upload_person_task st updated).1 in
  let reverified := (verify_upload_person_task st verified).1 in
  (∀ e, create_uploaded_persons_tasks st verified = inl e →
        is_commit_error e = true →
        o = mkOutcome (RenderResults reverified 400) [ErrorSaving e]
              (Some reverified) st)
  ∧ (∀ persons_created tasks_created st',
        create_uploaded_persons_tasks st verified
        = inr (persons_created, tasks_created, st') →
        o = mkOutcome (Redirect "person_bulk_add")
              [Uploaded (length persons_created) (length tasks_created)]
              None st')
  ∧ (session o = None
     ↔ ∃ created, create_uploaded_persons_tasks st verified = inr created).
Proof.
  intros Hne Hm Hup Hv Hc Hx o verified reverified. subst o.
  rewrite (confirmation_saves _ _ _ _ Hne Hm Hup Hv Hc Hx). cbv zeta.
  fold verified. fold reverified. split_and!.
  - intros e -> He. by rewrite He.
  - by intros persons_created tasks_created st' ->.
  - destruct (create_uploaded_persons_tasks st verified)
      as [e|[[persons_created tasks_created] st']]; simpl.
    + split; [|by intros [? ?]]. by destruct (is_commit_error e).
    + split; [by eexists|done].
Qed.

End Commit.

Example save_unknown_event :
  person_bulk_add_confirmation Upload.verify_upload_person_task
    Upload.create_uploaded_persons_tasks save_unknown_event_request
    (Some staged_hermione) hogwarts
  = let shown :=
      [ Staged.mk "Hermione" None "Granger" (Some "hermione@granger.co.uk")
          (Some "2015-beta-event") (Some "instructor")
          (Some [("event", ["Event does not exist."])]) ] in
    mkOutcome (RenderResults shown 400)
      [ErrorSaving (InternalError "Uploaded data contains errors, cancelling upload.")]
      (Some shown) hogwarts.
Proof. vm_compute. reflexivity. Qed.

Example save_hermione :
  let o := person_bulk_add_confirmation Upload.verify_upload_person_task
             Upload.create_uploaded_persons_tasks save_request
             (Some staged_hermione) hogwarts in
  response o = Redirect "person_bulk_add"
  ∧ messages o = [Uploaded 1 0]
  ∧ session o = None
  ∧ ids (persons (store o)) = [1; 2; 3; 4; 5].
Proof. cbv zeta. split_and!; compute_done. Qed.

Lemma commit_outcomes_witness :
  let o := person_bulk_add_confirmation Upload.verify_upload_person_task
             Upload.create_uploaded_persons_tasks save_unknown_event_request
             (Some staged_hermione) hogwarts in
  session o = None
  ↔ ∃ created,
      Upload.create_uploaded_persons_tasks hogwarts
        (Upload.verify_upload_person_task hogwarts
           (update_staged resubmission_unknown_event staged_hermione).1).1
      = inr created.
Proof.
  apply (commit_outcomes Upload.verify_upload_person_task
           Upload.create_uploaded_persons_tasks save_unknown_event_request
           staged_hermione
           (update_staged resubmission_unknown_event staged_hermione).1 hogwarts);
    compute_done.
Defined.

End CommitFacts.

(** ** Pagination *)

Module PaginationFacts.
Import Pagination Samples.

Section Pages.

Context {A : Type}.
Implicit Types (get : gmap string (list string)) (all_objects : list A).

(** ['all'] shows everything. *)
Lemma items_all get all_objects :
  QueryDict.get "items_per_page" get = Some "all" →
  _get_pagination_items get all_objects = inr (AllObjects all_objects).
Proof.
  intros Hall. unfold _get_pagination_items, items_per_page. by rewrite Hall.
Qed.

(** Any other string that is no integer counts as the default. *)
Lemma items_default get s :
  QueryDict.get "items_per_page" get = Some s → s ≠ "all" →
  Py.int_of_str s = None →
  items_per_page get = inr (Py.PyInt ITEMS_PER_PAGE).
Proof.
  intros Hs Hne Hint. unfold items_per_page. rewrite Hs.
  rewrite decide_False by congruence. simpl. by rewrite Hint.
Qed.

Lemma items_absent get :
  QueryDict.get "items_per_page" get = None →
  items_per_page get = inr (Py.PyInt ITEMS_PER_PAGE).
Proof. intros Hs. unfold items_per_page. by rewrite Hs. Qed.

(** With a positive page size there is at least one page. *)
Lemma num_pages_positive all_objects items :
  0 < items < Paginator.FLOAT_OVERFLOW →
  ∃ pages, Paginator.num_pages (Paginator.mk all_objects items) = inr pages
           ∧ 1 ≤ pages.
Proof.
  intros [Hpos Hfloat]. unfold Paginator.num_pages. simpl.
  destruct (Z.eqb_spec items 0) as [->|_]; [lia|].
  destruct (Z.leb_spec Paginator.FLOAT_OVERFLOW (Z.abs items)); [lia|].
  eexists. split; [reflexivity|].
  assert (- Z.max 1 (Paginator.count (Paginator.mk all_objects items)) / items < 0);
    [|lia].
  apply Z.div_lt_upper_bound; lia.
Qed.

(** A page number within range is served. *)
Lemma page_in_range all_objects items pages n :
  Paginator.num_pages (Paginator.mk all_objects items) = inr pages →
  1 ≤ n ≤ pages →
  ∃ result, Paginator.page (Paginator.mk all_objects items) (Py.PyInt n) = inr result
            ∧ Paginator.number result = n.
Proof.
  intros Hpages Hn. unfold Paginator.page, Paginator.validate_number. simpl.
  rewrite Hpages.
  destruct (Z.ltb_spec n 1); [lia|].
  destruct (Z.ltb_spec pages n); [lia|]. simpl. by eexists.
Qed.

(** A page parameter that is no integer gives the first page, for a
    positive page size. *)
Lemma page_not_an_integer get all_objects items e :
  items_per_page get = inr (Py.PyInt items) →
  0 < items < Paginator.FLOAT_OVERFLOW →
  Py.int (page_param get) = inl e →
  ∃ result, _get_pagination_items get all_objects = inr (OnePage result)
            ∧ Paginator.number result = 1.
Proof.
  intros Hitems Hpos Hpage.
  destruct (num_pages_positive all_objects items Hpos) as (pages & Hpages & Hge).
  destruct (page_in_range all_objects items pages 1 Hpages) as (result & Hres & Hnum);
    [lia|].
  exists result. split; [|done].
  unfold _get_pagination_items. rewrite Hitems.
  unfold Paginator.page at 1. unfold Paginator.validate_number. rewrite Hpage.
  by rewrite Hres.
Qed.

(** A page number out of range gives the last page, for a positive page
    size. *)
Lemma page_out_of_range get all_objects items pages n :
  items_per_page get = inr (Py.PyInt items) →
  0 < items < Paginator.FLOAT_OVERFLOW →
  Paginator.num_pages (Paginator.mk all_objects items) = inr pages →
  Py.int (page_param get) = inr n → n < 1 ∨ pages < n →
  ∃ result, _get_pagination_items get all_objects = inr (OnePage result)
            ∧ Paginator.number result = pages.
Proof.
  intros Hitems Hpos Hpages Hpage Hout.
  destruct (num_pages_positive all_objects items Hpos) as (pages' & Hpages' & Hge).
  assert (pages' = pages) as -> by congruence.
  destruct (page_in_range all_objects items pages pages Hpages) as (result & Hres & Hnum);
    [lia|].
  exists result. split; [|done].
  unfold _get_pagination_items. rewrite Hitems.
  unfold Paginator.page at 1. unfold Paginator.validate_number.
  rewrite Hpage, Hpages.
  destruct (Z.ltb_spec n 1).
  - by rewrite Hres.
  - destruct Hout as [?|Hout]; [lia|].
    destruct (Z.ltb_spec pages n); [|lia].
    destruct (Z.eqb_spec n 1); [lia|]. simpl.
    by rewrite Hres.
Qed.

(** With the page size -1 the count of pages is negative. *)
Lemma num_pages_minus_one all_objects :
  ∃ pages, Paginator.num_pages (Paginator.mk all_objects (-1)) = inr pages
           ∧ pages ≤ -1.
Proof.
  unfold Paginator.num_pages. cbn [Paginator.per_page].
  change (-1 =? 0) with false. cbn iota.
  replace (Paginator.FLOAT_OVERFLOW <=? Z.abs (-1)) with false by (by vm_compute).
  eexists. split; [reflexivity|].
  generalize (Paginator.count (Paginator.mk all_objects (-1))). intros c.
  change (-1) with (Z.opp 1) at 1. rewrite Z.div_opp_opp, Z.div_1_r by lia. lia.
Qed.

(** C9 at [?items_per_page=0]: whatever the page parameter, the count of
    pages divides by zero and no page is returned; at
    [?items_per_page=-1&page=7] the last page does not exist. *)
Lemma pagination_fails_without_positive_items all_objects :
  _get_pagination_items zero_items all_objects = inl ZeroDivisionError
  ∧ _get_pagination_items zero_items_page_x all_objects = inl ZeroDivisionError
  ∧ _get_pagination_items zero_items_page_7 all_objects = inl ZeroDivisionError
  ∧ _get_pagination_items negative_items_page_7 all_objects = inl EmptyPage.
Proof.
  split_and!; [reflexivity..|].
  destruct (num_pages_minus_one all_objects) as (pages & Hpages & Hneg).
  unfold _get_pagination_items.
  replace (items_per_page negative_items_page_7) with (inr (A:=exn) (Py.PyInt (-1)))
    by (by vm_compute).
  replace (page_param negative_items_page_7) with (Py.PyStr "7") by (by vm_compute).
  unfold Paginator.page, Paginator.validate_number.
  replace (Py.int (Py.PyStr "7")) with (inr (A:=exn) 7) by (by vm_compute).
  rewrite Hpages. cbn [Py.int].
  change (7 <? 1) with false. change (7 =? 1) with false. cbn iota.
  destruct (Z.ltb_spec pages 7); [|lia]. cbn [andb negb].
  destruct (Z.ltb_spec pages 1); [|lia]. reflexivity.
Qed.

End Pages.

Example second_page :
  _get_pagination_items
    (list_to_map [("items_per_page", ["2"]); ("page", ["2"])]) [1; 2; 3; 4; 5]
  = inr (OnePage (Paginator.mkPage [3; 4] 2)).
Proof. vm_compute. reflexivity. Qed.

Example past_the_last_page :
  _get_pagination_items
    (list_to_map [("items_per_page", ["2"]); ("page", ["9"])]) [1; 2; 3; 4; 5]
  = inr (OnePage (Paginator.mkPage [5] 3)).
Proof. vm_compute. reflexivity. Qed.

(** A page size beyond the range of the floats is read by [int], and the
    count of pages then raises. *)
Example page_size_beyond_floats :
  Paginator.num_pages (Paginator.mk [1; 2; 3] (10 ^ 309)) = inl OverflowError
  ∧ Paginator.page (Paginator.mk [1; 2; 3] (10 ^ 309)) (Py.PyInt 1)
    = inl OverflowError.
Proof. split; vm_compute; reflexivity. Qed.

End PaginationFacts.

(** ** More on the grouping and the choice of the primary *)

Module GroupingMore.
Import FindDuplicates PrimaryFacts FinderFacts MergeFacts Samples MoreSamples.

Lemma groups_append_concat key person (groups : list (Key * list Person)) :
  concat (groups_append key person groups).*2 ≡ₚ concat groups.*2 ++ [person].
Proof.
  induction groups as [|[k g] rest IH]; cbn [groups_append].
  - done.
  - destruct (decide (k = key)); rewrite !fmap_cons; cbn [snd concat].
    + rewrite <- !app_assoc. apply Permutation_app_head, Permutation_app_comm.
    + rewrite IH. by rewrite app_assoc.
Qed.

Lemma fold_group_step_concat (ps : list Person) (groups : list (Key * list Person)) :
  concat (foldl group_step groups ps).*2 ≡ₚ concat groups.*2 ++ ps.
Proof.
  revert groups. induction ps as [|p ps IH]; intros groups; cbn [foldl].
  - by rewrite app_nil_r.
  - rewrite IH. unfold group_step. rewrite groups_append_concat.
    by rewrite <- app_assoc.
Qed.

(** X1. The grouping loop partitions the persons it is given: the keys of
    the groups are distinct, no group is empty, a group holds the persons
    with its key in the order of the query, and the groups together hold
    every person once. *)
Theorem grouping_partitions (ps : list Person) :
  NoDup (group_persons ps).*1
  ∧ (∀ key g, (key, g) ∈ group_persons ps →
              g ≠ [] ∧ g = filter (λ p, get_first_last p = key) ps)
  ∧ concat (group_persons ps).*2 ≡ₚ ps.
Proof.
  split_and!.
  - apply group_persons_keys_NoDup.
  - intros key g Hg. apply group_persons_spec in Hg. tauto.
  - unfold group_persons. by rewrite fold_group_step_concat.
Qed.

Lemma filter_all {A} (P : A → Prop) `{∀ x, Decision (P x)} (l : list A) :
  (∀ x, x ∈ l → P x) → filter P l = l.
Proof.
  induction l as [|x l IH]; intros Hall; [done|].
  rewrite filter_cons_True by apply Hall, list_elem_of_here.
  f_equal. apply IH. intros y Hy. by apply Hall, list_elem_of_further.
Qed.

Lemma list_remove_middle x (l1 l2 : list Person) :
  (∀ y, y ∈ l1 → person_id y ≠ person_id x) →
  list_remove x (l1 ++ x :: l2) = l1 ++ l2.
Proof.
  induction l1 as [|y l1 IH]; intros Hno; simpl.
  - by rewrite decide_True.
  - rewrite decide_False by apply Hno, list_elem_of_here.
    f_equal. apply IH. intros z Hz. by apply Hno, list_elem_of_further.
Qed.

(** From a position past which no member has the posted key, the loop
    changes nothing. *)
Lemma find_primary_loop_no_match rounds i primary_id primary (group : list Person) :
  (∀ j x, (i ≤ j)%nat → group !! j = Some x → person_id x ≠ primary_id) →
  find_primary_loop rounds i primary_id primary group = (primary, group).
Proof.
  revert i. induction rounds as [|rounds IH]; intros i Hno; simpl; [done|].
  destruct (group !! i) as [person|] eqn:Hi; [|done].
  rewrite decide_False by (by apply (Hno i)).
  apply IH. intros j x Hj. apply Hno. lia.
Qed.

Lemma find_primary_loop_middle rounds i x (l1 l2 : list Person) primary :
  (i ≤ length l1)%nat → (length l1 - i < rounds)%nat →
  (∀ y, y ∈ l1 ++ l2 → person_id y ≠ person_id x) →
  find_primary_loop rounds i (person_id x) primary (l1 ++ x :: l2)
  = (Some x, l1 ++ l2).
Proof.
  revert i primary.
  induction rounds as [|rounds IH]; intros i primary Hi Hr Hno; [lia|].
  simpl. destruct (decide (i = length l1)) as [->|Hne].
  - rewrite list_lookup_middle by done. rewrite decide_True by done.
    rewrite list_remove_middle
      by (intros y Hy; apply Hno, elem_of_app; by left).
    apply find_primary_loop_no_match. intros j y _ Hy.
    apply Hno. by eapply list_elem_of_lookup_2.
  - assert (i < length l1)%nat as Hlt by lia.
    destruct (lookup_lt_is_Some_2 l1 i Hlt) as [y Hy].
    rewrite lookup_app_l, Hy by done.
    rewrite decide_False.
    + apply IH; [lia|lia|done].
    + apply Hno, elem_of_app. left. by eapply list_elem_of_lookup_2.
Qed.

(** X2. With distinct primary keys, the loop that searches the group for
    the posted primary while removing from it finds that person and
    leaves the rest of the group, in order. *)
Theorem find_primary_search_and_filter (group : list Person) (primary : Person) :
  NoDup (ids group) → primary ∈ group →
  find_primary (person_id primary) group
  = (Some primary, filter (λ p, person_id p ≠ person_id primary) group).
Proof.
  intros Hnd Hin.
  apply list_elem_of_split in Hin as (l1 & l2 & ->).
  assert (∀ y, y ∈ l1 ++ l2 → person_id y ≠ person_id primary) as Hno.
  { unfold ids in Hnd. rewrite fmap_app, fmap_cons in Hnd.
    apply NoDup_app in Hnd as (_ & H1 & [H2 _]%NoDup_cons).
    intros y [Hy|Hy]%elem_of_app Heq.
    - apply (H1 (person_id y)); [by apply list_elem_of_fmap_2|].
      rewrite Heq. apply list_elem_of_here.
    - apply H2. rewrite <- Heq. by apply list_elem_of_fmap_2. }
  unfold find_primary. rewrite find_primary_loop_middle; [|lia| |done].
  - f_equal. rewrite filter_app, filter_cons_False by (by intros ?).
    rewrite !filter_all; [done|..]; intros y Hy; apply Hno, elem_of_app; auto.
  - rewrite length_app. simpl. lia.
Qed.

Lemma find_primary_search_and_filter_witness :
  find_primary 4
    [ mkPerson 1 "Harry" None "Potter" (Some "harry@hogwarts.edu");
      mkPerson 4 "Harry" (Some "J.") "Potter" None ]
  = (Some (mkPerson 4 "Harry" (Some "J.") "Potter" None),
     filter (λ p, person_id p ≠ 4)
       [ mkPerson 1 "Harry" None "Potter" (Some "harry@hogwarts.edu");
         mkPerson 4 "Harry" (Some "J.") "Potter" None ]).
Proof.
  apply (find_primary_search_and_filter
           [ mkPerson 1 "Harry" None "Potter" (Some "harry@hogwarts.edu");
             mkPerson 4 "Harry" (Some "J.") "Potter" None ]
           (mkPerson 4 "Harry" (Some "J.") "Potter" None)); compute_done.
Defined.

End GroupingMore.

(** ** More on the selection and the confirmation of duplicates *)

Module SelectionMore.
Import FindDuplicates PrimaryFacts FinderFacts MergeFacts Samples MoreSamples.

(** The sample requests are within the model. *)
Ltac within_model :=
  split;
  [ compute_done
  | intros ? ?; cbn; repeat case_decide; intros [= <-]; reflexivity ].









Lemma elem_of_selected_dupes req st p :
  p ∈ selected_dupes req st
  ↔ p ∈ persons st
    ∧ ∃ x, x ∈ POST_keys req ∧ Py.isdigit x = true
           ∧ Py.int_of_str x = Some (person_id p).
Proof.
  unfold selected_dupes.
  rewrite order_by_name_elem_of, list_elem_of_filter, list_elem_of_omap.
  unfold post_array. split.
  - intros [(x & [Hd Hx]%list_elem_of_filter & Hn) Hp]. eauto 6.
  - intros (Hp & x & Hx & Hd & Hn). split; [|done].
    exists x. split; [|done]. by apply list_elem_of_filter.
Qed.



Example unreadable_and_oversized_ids :
  query_error (mkRequest POST ["12"; "9223372036854775808"] (λ _, None))
  = Some OverflowError
  ∧ query_error (mkRequest POST ["12"; "9223372036854775807"] (λ _, None)) = None
  ∧ Py.int_of_str "1_0" = Some 10
  ∧ Py.int_of_str "1__0" = None
  ∧ Py.int_of_str (String "028" "5") = Some 5.
Proof. split_and!; compute_done. Qed.

Lemma selected_dupes_NoDup req st :
  NoDup (ids (persons st)) → NoDup (selected_dupes req st).
Proof.
  intros Hnd. unfold selected_dupes, order_by_name.
  rewrite merge_sort_Permutation. by apply NoDup_filter, NoDup_ids_NoDup.
Qed.

Lemma confirm_groups_nil req st :
  NoDup (ids (persons st)) →
  confirm_groups req st = []
  ↔ ∀ p q, p ∈ selected_dupes req st → q ∈ selected_dupes req st →
           get_first_last p = get_first_last q → p = q.
Proof.
  intros Hnd. pose proof (selected_dupes_NoDup req st Hnd) as Hsel. split.
  - intros Hnil p q Hp Hq Hkey.
    destruct (decide (p = q)) as [|Hne]; [done|]. exfalso.
    set (g := filter (λ x, get_first_last x = get_first_last p) (selected_dupes req st)).
    assert (p ∈ g) as Hpg by (by apply list_elem_of_filter).
    assert (q ∈ g) as Hqg by (by apply list_elem_of_filter).
    assert ((get_first_last p, g) ∈ confirm_groups req st) as Hin.
    { unfold confirm_groups. apply elem_of_more_than_one. split.
      - simpl. apply (more_than_one_other g p); [by apply NoDup_filter|done|].
        exists q. split; [done|congruence].
      - apply group_persons_spec. split; [done|].
        intros Heq. rewrite Heq in Hpg. by apply elem_of_nil in Hpg. }
    rewrite Hnil in Hin. by apply elem_of_nil in Hin.
  - intros Hinj. apply elem_of_nil_inv. intros [key g] Hin.
    unfold confirm_groups in Hin.
    apply elem_of_more_than_one in Hin as [Hlen Hg]. simpl in Hlen.
    apply group_persons_spec in Hg as [-> Hne].
    destruct (filter _ (selected_dupes req st)) as [|x l] eqn:Hf; [done|].
    assert (NoDup (x :: l)) as Hndg by (rewrite <- Hf; by apply NoDup_filter).
    apply (more_than_one_other (x :: l) x) in Hlen as (y & Hy & Hyx);
      [|done|apply list_elem_of_here].
    apply Hyx. rewrite <- Hf in Hy.
    assert (x ∈ filter (λ p, get_first_last p = key) (selected_dupes req st)) as Hx
      by (rewrite Hf; apply list_elem_of_here).
    apply list_elem_of_filter in Hx as [Kx Hx], Hy as [Ky Hy].
    apply Hinj; [done..|congruence].
Qed.

(** X4. For a request within the model whose query raises nothing, a
    selection that is not yet confirmed is answered with "You must select
    at least two duplicate entries" exactly when no two of the selected
    persons have the same group key ([get_first_last]); otherwise the
    confirmation page is shown with the kept groups; the store is not
    touched either way. *)
Theorem unconfirmed_selection (req : Request) (st : Store) :
  method req = POST → "Confirm" ∉ POST_keys req →
  within_model req → query_error req = None →
  NoDup (ids (persons st)) →
  let o := person_find_duplicates req st in
  store o = st
  ∧ (o = mkOutcome (Redirect "person_find_duplicates") [SelectAtLeastTwo] st
     ↔ ∀ p q, p ∈ selected_dupes req st → q ∈ selected_dupes req st →
              get_first_last p = get_first_last q → p = q)
  ∧ (o ≠ mkOutcome (Redirect "person_find_duplicates") [SelectAtLeastTwo] st →
     o = mkOutcome
           (RenderDupes "Confirm Merge" (confirm_groups req st) "Confirm" "success")
           [] st).
Proof.
  intros Hm Hc _ Hq Hnd o. subst o. rewrite <- confirm_groups_nil by done.
  unfold person_find_duplicates. rewrite Hm, Hq, decide_False by done.
  destruct (confirm_groups req st) as [|kv groups]; split_and!; try done.
Qed.

Lemma unconfirmed_selection_witness :
  let o := person_find_duplicates lone_selection_request hogwarts in
  store o = hogwarts
  ∧ (o = mkOutcome (Redirect "person_find_duplicates") [SelectAtLeastTwo] hogwarts
     ↔ ∀ p q, p ∈ selected_dupes lone_selection_request hogwarts →
              q ∈ selected_dupes lone_selection_request hogwarts →
              get_first_last p = get_first_last q → p = q)
  ∧ (o ≠ mkOutcome (Redirect "person_find_duplicates") [SelectAtLeastTwo] hogwarts →
     o = mkOutcome
           (RenderDupes "Confirm Merge"
              (confirm_groups lone_selection_request hogwarts) "Confirm" "success")
           [] hogwarts).
Proof.
  apply (unconfirmed_selection lone_selection_request hogwarts);
    first [compute_done | within_model].
Defined.



End SelectionMore.

(** ** The groups kept on the confirmation path and their merge *)

Module KeptGroupFacts.
Import FindDuplicates Effects PrimaryFacts FinderFacts MergeFacts GroupingMore.
Import SelectionMore Samples MoreSamples.

Lemma elem_of_concat {A} (x : A) (ls : list (list A)) :
  x ∈ concat ls ↔ ∃ l, x ∈ l ∧ l ∈ ls.
Proof.
  induction ls as [|l ls IH]; simpl.
  - split; [by intros ?%elem_of_nil | by intros (l & _ & ?%elem_of_nil)].
  - rewrite elem_of_app, IH. split.
    + intros [Hx|(l' & Hx & Hl)].
      * exists l. split; [done|apply list_elem_of_here].
      * exists l'. split; [done|by apply list_elem_of_further].
    + intros (l' & Hx & [->|Hl]%elem_of_cons); [by left|right; eauto].
Qed.

Lemma elem_of_ids_groups z (groups : list (Key * list Person)) :
  z ∈ ids (concat groups.*2) ↔ ∃ key g, (key, g) ∈ groups ∧ z ∈ ids g.
Proof.
  unfold ids. rewrite list_elem_of_fmap. split.
  - intros (p & -> & (g & Hp & Hg)%elem_of_concat).
    apply list_elem_of_fmap in Hg as ([key g'] & -> & Hkg).
    exists key, g'. split; [done|]. by apply list_elem_of_fmap_2.
  - intros (key & g & Hkg & (p & -> & Hp)%list_elem_of_fmap).
    exists p. split; [done|]. apply elem_of_concat. exists g. split; [done|].
    apply list_elem_of_fmap. by exists (key, g).
Qed.

Lemma concat_filter_sublist {A} (P : Key * list A → Prop)
    `{∀ kv, Decision (P kv)} (groups : list (Key * list A)) :
  concat (filter P groups).*2 `sublist_of` concat groups.*2.
Proof.
  induction groups as [|kv groups IH]; [done|].
  rewrite filter_cons, (fmap_cons snd kv groups). cbn [concat].
  destruct (decide (P kv)).
  - rewrite fmap_cons. cbn [concat]. by apply sublist_app.
  - by apply sublist_inserts_l.
Qed.

Lemma selected_dupes_ids_NoDup req st :
  NoDup (ids (persons st)) → NoDup (ids (selected_dupes req st)).
Proof.
  intros Hnd. unfold selected_dupes, order_by_name, ids.
  rewrite merge_sort_Permutation.
  eapply sublist_NoDup; [exact Hnd|]. apply fmap_sublist, sublist_filter.
Qed.

(** The kept groups share no person. *)
Lemma confirm_groups_ids_NoDup req st :
  NoDup (ids (persons st)) → NoDup (ids (concat (confirm_groups req st).*2)).
Proof.
  intros Hnd. unfold confirm_groups, more_than_one.
  eapply sublist_NoDup; [|apply fmap_sublist, concat_filter_sublist].
  unfold group_persons, ids. rewrite fold_group_step_concat. simpl.
  by apply selected_dupes_ids_NoDup.
Qed.

Lemma elem_of_confirm_groups req st key g :
  (key, g) ∈ confirm_groups req st
  ↔ g = filter (λ p, get_first_last p = key) (selected_dupes req st)
    ∧ (1 < length g)%nat.
Proof.
  unfold confirm_groups. rewrite elem_of_more_than_one, group_persons_spec.
  simpl. split.
  - tauto.
  - intros [-> Hlen]. split_and!; [done..|]. intros Heq. rewrite Heq in Hlen.
    simpl in Hlen. lia.
Qed.

(** *** One call of the merger *)

Lemma merge_model_objects_inr primary aliases st st' :
  merge_model_objects primary aliases st = inr st' →
  (person_id primary ∉ ids aliases)
  ∧ persons st' = filter (λ p, person_id p ∉ ids aliases) (persons st)
  ∧ awards st' = repoint_award (person_id primary) (ids aliases) <$> awards st
  ∧ qualifications st'
    = remove_dups (repoint_qualification (person_id primary) (ids aliases)
                     <$> qualifications st)
  ∧ tasks st' = repoint_task (person_id primary) (ids aliases) <$> tasks st.
Proof.
  unfold merge_model_objects.
  destruct (decide (person_id primary ∈ ids aliases)); [done|].
  by intros [= <-].
Qed.

Lemma repoint_award_cases primary dups a :
  (award_person a ∈ dups
   ∧ repoint_award primary dups a = mkAward primary (award_badge a))
  ∨ ((award_person a ∉ dups) ∧ repoint_award primary dups a = a).
Proof.
  destruct a as [z b]. unfold repoint_award, repoint. simpl.
  destruct (decide (z ∈ dups)); [by left|by right].
Qed.

Lemma repoint_qualification_cases primary dups q :
  (qual_person q ∈ dups
   ∧ repoint_qualification primary dups q = mkQualification primary (qual_skill q))
  ∨ ((qual_person q ∉ dups) ∧ repoint_qualification primary dups q = q).
Proof.
  destruct q as [z b]. unfold repoint_qualification, repoint. simpl.
  destruct (decide (z ∈ dups)); [by left|by right].
Qed.

Lemma repoint_task_cases primary dups t :
  (task_person t ∈ dups
   ∧ repoint_task primary dups t
     = mkTask (task_event t) primary (task_role t))
  ∨ ((task_person t ∉ dups) ∧ repoint_task primary dups t = t).
Proof.
  destruct t as [e z r]. unfold repoint_task, repoint. simpl.
  destruct (decide (z ∈ dups)); [by left|by right].
Qed.

(** The merger leaves alone whoever is neither the primary nor one of the
    duplicates. *)
Lemma merge_model_objects_same z primary aliases st st' :
  merge_model_objects primary aliases st = inr st' →
  z ∉ ids aliases → z ≠ person_id primary → same_at z st st'.
Proof.
  intros (_ & Hp & Ha & Hq & Ht)%merge_model_objects_inr Hz Hne.
  unfold same_at. rewrite Hp, Ha, Hq, Ht. split_and!.
  - intros p <-. rewrite list_elem_of_filter. tauto.
  - intros a <-. rewrite list_elem_of_fmap. split.
    + intros (a0 & Heq & Hin).
      destruct (repoint_award_cases (person_id primary) (ids aliases) a0)
        as [[_ Hr]|[_ Hr]]; rewrite Hr in Heq; subst a; [done|done].
    + intros Hin. exists a. split; [|done].
      by destruct (repoint_award_cases (person_id primary) (ids aliases) a)
        as [[? _]|[_ ->]].
  - intros q <-. rewrite elem_of_remove_dups, list_elem_of_fmap. split.
    + intros (q0 & Heq & Hin).
      destruct (repoint_qualification_cases (person_id primary) (ids aliases) q0)
        as [[_ Hr]|[_ Hr]]; rewrite Hr in Heq; subst q; [done|done].
    + intros Hin. exists q. split; [|done].
      by destruct (repoint_qualification_cases (person_id primary) (ids aliases) q)
        as [[? _]|[_ ->]].
  - intros t <-. rewrite list_elem_of_fmap. split.
    + intros (t0 & Heq & Hin).
      destruct (repoint_task_cases (person_id primary) (ids aliases) t0)
        as [[_ Hr]|[_ Hr]]; rewrite Hr in Heq; subst t; [done|done].
    + intros Hin. exists t. split; [|done].
      by destruct (repoint_task_cases (person_id primary) (ids aliases) t)
        as [[? _]|[_ ->]].
Qed.

(** The merger deletes the duplicates and leaves no row that refers to
    one of them. *)
Lemma merge_model_objects_gone z primary aliases st st' :
  merge_model_objects primary aliases st = inr st' →
  z ∈ ids aliases → gone z st'.
Proof.
  intros (Hprim & Hp & Ha & Hq & Ht)%merge_model_objects_inr Hz.
  assert (z ≠ person_id primary) as Hne by congruence.
  unfold gone. rewrite Hp, Ha, Hq, Ht. split_and!.
  - intros (p & -> & [Hout _]%list_elem_of_filter)%list_elem_of_fmap. done.
  - intros (a & -> & (a0 & -> & _)%list_elem_of_fmap)%list_elem_of_fmap.
    by destruct (repoint_award_cases (person_id primary) (ids aliases) a0)
      as [[_ Hr]|[? Hr]]; rewrite Hr in Hz, Hne.
  - intros (q & -> & Hin)%list_elem_of_fmap.
    apply elem_of_remove_dups, list_elem_of_fmap in Hin as (q0 & -> & _).
    by destruct (repoint_qualification_cases (person_id primary) (ids aliases) q0)
      as [[_ Hr]|[? Hr]]; rewrite Hr in Hz, Hne.
  - intros (t & -> & (t0 & -> & _)%list_elem_of_fmap)%list_elem_of_fmap.
    by destruct (repoint_task_cases (person_id primary) (ids aliases) t0)
      as [[_ Hr]|[? Hr]]; rewrite Hr in Hz, Hne.
Qed.

(** The rows of the primary and of the duplicates are rows of the primary
    after the merge. *)
Lemma merge_model_objects_rows primary aliases st st' :
  merge_model_objects primary aliases st = inr st' →
  (∀ a, a ∈ awards st → award_person a ∈ person_id primary :: ids aliases →
        mkAward (person_id primary) (award_badge a) ∈ awards st')
  ∧ (∀ q, q ∈ qualifications st →
          qual_person q ∈ person_id primary :: ids aliases →
          mkQualification (person_id primary) (qual_skill q) ∈ qualifications st')
  ∧ (∀ t, t ∈ tasks st → task_person t ∈ person_id primary :: ids aliases →
          mkTask (task_event t) (person_id primary) (task_role t) ∈ tasks st').
Proof.
  intros (_ & _ & Ha & Hq & Ht)%merge_model_objects_inr.
  rewrite Ha, Hq, Ht. split_and!.
  - intros a Hin Hz. apply list_elem_of_fmap. exists a. split; [|done].
    destruct (repoint_award_cases (person_id primary) (ids aliases) a)
      as [[_ ->]|[Hout ->]]; [done|].
    apply elem_of_cons in Hz as [Hz|Hz]; [|done]. destruct a; simpl in *; congruence.
  - intros q Hin Hz. apply elem_of_remove_dups, list_elem_of_fmap.
    exists q. split; [|done].
    destruct (repoint_qualification_cases (person_id primary) (ids aliases) q)
      as [[_ ->]|[Hout ->]]; [done|].
    apply elem_of_cons in Hz as [Hz|Hz]; [|done]. destruct q; simpl in *; congruence.
  - intros t Hin Hz. apply list_elem_of_fmap. exists t. split; [|done].
    destruct (repoint_task_cases (person_id primary) (ids aliases) t)
      as [[_ ->]|[Hout ->]]; [done|].
    apply elem_of_cons in Hz as [Hz|Hz]; [|done]. destruct t; simpl in *; congruence.
Qed.

Lemma same_at_refl z st : same_at z st st.
Proof. unfold same_at. split_and!; done. Qed.

Lemma same_at_trans z st1 st2 st3 :
  same_at z st1 st2 → same_at z st2 st3 → same_at z st1 st3.
Proof.
  intros (P1 & A1 & Q1 & T1) (P2 & A2 & Q2 & T2). unfold same_at. split_and!.
  - intros p Hp. by rewrite P2, P1.
  - intros a Ha. by rewrite A2, A1.
  - intros q Hq. by rewrite Q2, Q1.
  - intros t Ht. by rewrite T2, T1.
Qed.

Lemma gone_same_at z st st' : gone z st → same_at z st st' → gone z st'.
Proof.
  intros (P & A & Q & T) (SP & SA & SQ & ST). unfold gone. split_and!.
  - intros (p & -> & Hp)%list_elem_of_fmap. apply P.
    apply list_elem_of_fmap_2. by apply SP.
  - intros (a & -> & Ha)%list_elem_of_fmap. apply A.
    apply list_elem_of_fmap_2. by apply SA.
  - intros (q & -> & Hq)%list_elem_of_fmap. apply Q.
    apply list_elem_of_fmap_2. by apply SQ.
  - intros (t & -> & Ht)%list_elem_of_fmap. apply T.
    apply list_elem_of_fmap_2. by apply ST.
Qed.

(** *** The choice of the primary among distinct primary keys *)

Lemma NoDup_ids_middle (l1 l2 : list Person) x :
  NoDup (ids (l1 ++ x :: l2)) →
  ∀ y, y ∈ l1 ++ l2 → person_id y ≠ person_id x.
Proof.
  unfold ids. rewrite fmap_app, fmap_cons.
  intros (_ & H1 & [H2 _]%NoDup_cons)%NoDup_app y [Hy|Hy]%elem_of_app Heq.
  - apply (H1 (person_id y)); [by apply list_elem_of_fmap_2|].
    rewrite Heq. apply list_elem_of_here.
  - apply H2. rewrite <- Heq. by apply list_elem_of_fmap_2.
Qed.

(** With distinct primary keys, the primary found is a member with the
    posted key, and the list handed to the merger is the rest of the
    group: the primary is never in its own list. *)
Lemma find_primary_rest primary_id group primary aliases :
  NoDup (ids group) →
  find_primary primary_id group = (Some primary, aliases) →
  primary ∈ group ∧ person_id primary = primary_id
  ∧ (primary_id ∉ ids aliases)
  ∧ (∀ p, p ∈ aliases → p ∈ group)
  ∧ (∀ p, p ∈ group → p = primary ∨ p ∈ aliases).
Proof.
  intros Hnd Hfind.
  destruct (find_primary_Some primary_id group primary) as [Hin Hid];
    [by rewrite Hfind|].
  apply list_elem_of_split in Hin as (l1 & l2 & ->).
  pose proof (NoDup_ids_middle l1 l2 primary Hnd) as Hno.
  unfold find_primary in Hfind. rewrite <- Hid in Hfind.
  rewrite find_primary_loop_middle in Hfind;
    [|lia|rewrite length_app; simpl; lia|done].
  injection Hfind as <-. split_and!.
  - apply elem_of_app. right. apply list_elem_of_here.
  - done.
  - rewrite <- Hid. intros (y & Hy & Hin)%list_elem_of_fmap.
    by apply (Hno y).
  - intros p [Hp|Hp]%elem_of_app; apply elem_of_app; [by left|].
    right. by apply list_elem_of_further.
  - intros p [Hp|[->|Hp]%elem_of_cons]%elem_of_app; [right|by left|right];
      apply elem_of_app; auto.
Qed.

(** *** The loop over the kept groups *)

(** Whatever the outcome, the loop leaves alone every person that is in
    none of its groups. *)
Lemma merge_groups_same req groups st z :
  z ∉ ids (concat groups.*2) → same_at z st (store (merge_groups req groups st)).
Proof.
  revert st. induction groups as [|[key group] rest IH]; intros st Hz.
  - apply same_at_refl.
  - rewrite fmap_cons in Hz. cbn [snd concat] in Hz. unfold ids in Hz.
    rewrite fmap_app in Hz. apply not_elem_of_app in Hz as [Hg Hrest].
    cbn [merge_groups].
    destruct (POST_primary req key) as [v|]; [|apply same_at_refl].
    destruct (Py.int (Py.PyStr v)) as [[]|primary_id]; try apply same_at_refl.
    pose proof (find_primary_subseteq primary_id group) as Hsub.
    pose proof (find_primary_Some primary_id group) as Hsome.
    destruct (find_primary primary_id group) as [[primary|] group'];
      [|apply same_at_refl].
    destruct (Hsome primary eq_refl) as [Hin Hid].
    destruct (merge_model_objects primary group' st) as [[]|st'] eqn:Hm;
      try apply same_at_refl.
    apply (same_at_trans z st st'); [|by apply IH].
    apply (merge_model_objects_same z primary group' st st' Hm).
    + intros (y & -> & Hy)%list_elem_of_fmap. apply Hg.
      apply list_elem_of_fmap_2, Hsub, Hy.
    + intros ->. apply Hg. by apply list_elem_of_fmap_2.
Qed.

(** When the loop ends in "Merge success", every group was merged into
    the primary posted for it. *)
Lemma merge_groups_merged req groups st st' :
  NoDup (ids (concat groups.*2)) →
  merge_groups req groups st = merged st' →
  ∀ key g, (key, g) ∈ groups →
  ∃ primary v,
    POST_primary req key = Some v
    ∧ Py.int_of_str v = Some (person_id primary)
    ∧ primary ∈ g
    ∧ (primary ∈ persons st → primary ∈ persons st')
    ∧ (∀ p, p ∈ g → p ≠ primary → gone (person_id p) st')
    ∧ (∀ a, a ∈ awards st → award_person a ∈ ids g →
            mkAward (person_id primary) (award_badge a) ∈ awards st')
    ∧ (∀ q, q ∈ qualifications st → qual_person q ∈ ids g →
            mkQualification (person_id primary) (qual_skill q)
            ∈ qualifications st')
    ∧ (∀ t, t ∈ tasks st → task_person t ∈ ids g →
            mkTask (task_event t) (person_id primary) (task_role t) ∈ tasks st').
Proof.
  revert st. induction groups as [|[k group] rest IH]; intros st Hnd Hok key g Hkg.
  { by apply elem_of_nil in Hkg. }
  rewrite fmap_cons in Hnd. cbn [snd concat] in Hnd. unfold ids in Hnd.
  rewrite fmap_app in Hnd. apply NoDup_app in Hnd as (Hndg & Hdisj & Hndr).
  cbn [merge_groups] in Hok.
  destruct (POST_primary req k) as [v|] eqn:Hv; [|done].
  unfold Py.int in Hok.
  destruct (Py.int_of_str v) as [primary_id|] eqn:Hn; [|done].
  destruct (find_primary primary_id group) as [[primary|] group'] eqn:Hfind;
    [|done].
  destruct (merge_model_objects primary group' st) as [[]|st1] eqn:Hm;
    try done.
  destruct (find_primary_rest primary_id group primary group' Hndg Hfind)
    as (Hin & Hid & Hout & Hsub & Hcov).
  pose proof (merge_groups_same req rest st1) as Hlater. rewrite Hok in Hlater.
  cbn [store merged] in Hlater.
  assert (∀ z, z ∈ ids group → same_at z st1 st') as Hkeep.
  { intros z Hz. apply Hlater. intros Hzr. by apply (Hdisj z). }
  assert (∀ z, z ∈ ids (concat rest.*2) → same_at z st st1) as Hbefore.
  { intros z Hz. apply (merge_model_objects_same z primary group' st st1 Hm).
    - intros (y & -> & Hy)%list_elem_of_fmap.
      apply (Hdisj (person_id y)); [|done].
      by apply list_elem_of_fmap_2, Hsub.
    - intros ->. apply (Hdisj (person_id primary)); [|done].
      by apply list_elem_of_fmap_2. }
  apply elem_of_cons in Hkg as [[= -> ->]|Hkg].
  - exists primary, v.
    destruct (merge_model_objects_rows primary group' st st1 Hm)
      as (Ra & Rq & Rt).
    assert (same_at (person_id primary) st1 st') as (SP & SA & SQ & ST)
      by (apply Hkeep; by apply list_elem_of_fmap_2).
    assert (∀ z, z ∈ ids group → z ∈ person_id primary :: ids group') as Hmem.
    { intros z (y & -> & Hy)%list_elem_of_fmap.
      destruct (Hcov y Hy) as [->|Hy']; [apply list_elem_of_here|].
      by apply list_elem_of_further, list_elem_of_fmap_2. }
    split_and!.
    + done.
    + by rewrite Hid.
    + done.
    + intros Hp. apply SP; [done|].
      apply merge_model_objects_inr in Hm as (_ & -> & _).
      apply list_elem_of_filter. split; [|done]. by rewrite Hid.
    + intros p Hp Hne. destruct (Hcov p Hp) as [->|Hp']; [done|].
      apply (gone_same_at _ st1).
      * apply (merge_model_objects_gone _ primary group' st st1 Hm).
        by apply list_elem_of_fmap_2.
      * apply Hkeep. by apply list_elem_of_fmap_2.
    + intros a Ha Hz. apply SA; [done|]. apply Ra; [done|]. by apply Hmem.
    + intros q Hq Hz. apply SQ; [done|]. apply Rq; [done|]. by apply Hmem.
    + intros t Ht Hz. apply ST; [done|]. apply Rt; [done|]. by apply Hmem.
  - destruct (IH st1 Hndr Hok key g Hkg)
      as (primary' & v' & Hv' & Hn' & Hin' & Hp' & Hg' & Ra & Rq & Rt).
    assert (∀ z, z ∈ ids g → same_at z st st1) as Hpre.
    { intros z Hz. apply Hbefore. apply elem_of_ids_groups. eauto. }
    exists primary', v'. split_and!; try done.
    + intros Hp. apply Hp'.
      by apply (Hpre (person_id primary')); [apply list_elem_of_fmap_2|..].
    + intros a Ha Hz. apply Ra; [|done]. by apply (Hpre (award_person a)).
    + intros q Hq Hz. apply Rq; [|done]. by apply (Hpre (qual_person q)).
    + intros t Ht Hz. apply Rt; [|done]. by apply (Hpre (task_person t)).
Qed.

(** C5. On the confirmation path of a request within the model whose
    query raises nothing: the persons selected are the persons of the
    store whose primary key is posted as a field name; the groups kept are
    exactly the groups of selected persons with the same key that have
    more than one member, and they are the groups shown for confirmation;
    whoever is in no kept group, and with it every selected person whose
    group has fewer than two members, is discarded and never merged: that
    person and the rows that refer to it are the same after the request,
    whatever its outcome; and when the confirmed request ends in "Merge
    success", every kept group was merged into the member posted as its
    primary. *)
Theorem kept_groups_are_merged (req : Request) (st : Store) :
  method req = POST → within_model req → query_error req = None →
  NoDup (ids (persons st)) →
  let groups := confirm_groups req st in
  let o := person_find_duplicates req st in
  (∀ p, p ∈ selected_dupes req st
        ↔ p ∈ persons st
          ∧ ∃ x, x ∈ POST_keys req ∧ Py.isdigit x = true
                 ∧ Py.int_of_str x = Some (person_id p))
  ∧ (∀ key g, (key, g) ∈ groups
              ↔ g = filter (λ p, get_first_last p = key) (selected_dupes req st)
                ∧ (1 < length g)%nat)
  ∧ ("Confirm" ∉ POST_keys req → rendered_groups o = groups ∧ store o = st)
  ∧ (∀ z, z ∉ ids (concat groups.*2) → same_at z st (store o))
  ∧ (∀ p, p ∈ selected_dupes req st →
          (length (filter (λ q, get_first_last q = get_first_last p)
                     (selected_dupes req st)) < 2)%nat →
          (∀ key g, (key, g) ∈ groups → p ∉ g)
          ∧ same_at (person_id p) st (store o))
  ∧ (∀ st', o = merged st' →
            ∀ key g, (key, g) ∈ groups →
            ∃ primary v,
              POST_primary req key = Some v
              ∧ Py.int_of_str v = Some (person_id primary)
              ∧ merged_into primary g st st').
Proof.
  intros Hm _ Hq Hnd groups o.
  assert (∀ z, z ∉ ids (concat groups.*2) → same_at z st (store o)) as Hsame.
  { intros z Hz. subst o. unfold person_find_duplicates. rewrite Hm, Hq.
    destruct (decide ("Confirm" ∈ POST_keys req)).
    - by apply merge_groups_same.
    - fold groups. destruct groups; apply same_at_refl. }
  assert (∀ p, p ∈ selected_dupes req st →
            (length (filter (λ q, get_first_last q = get_first_last p)
                       (selected_dupes req st)) < 2)%nat →
            ∀ key g, (key, g) ∈ groups → p ∉ g) as Hout.
  { intros p Hp Hlen key g Hkg Hpg.
    destruct (confirm_groups_member req st key g p Hkg Hpg) as [_ <-].
    apply elem_of_confirm_groups in Hkg as [-> Hgt]. lia. }
  split_and!.
  - apply elem_of_selected_dupes.
  - apply elem_of_confirm_groups.
  - intros Hc. subst o. unfold person_find_duplicates.
    rewrite Hm, Hq, decide_False by done. fold groups. by destruct groups.
  - exact Hsame.
  - intros p Hp Hlen. split; [by apply Hout|]. apply Hsame.
    intros (key & g & Hkg & (q & Hid & Hqg)%list_elem_of_fmap)%elem_of_ids_groups.
    apply (Hout p Hp Hlen key g Hkg).
    destruct (confirm_groups_member req st key g q Hkg Hqg) as [Hqs _].
    replace p with q; [done|].
    apply (NoDup_ids_inj (selected_dupes req st)); try done.
    by apply selected_dupes_ids_NoDup.
  - intros st' Hok key g Hkg.
    assert (o = merge_groups req groups st) as Ho.
    { subst o. unfold person_find_duplicates in *. rewrite Hm, Hq in *.
      destruct (decide ("Confirm" ∈ POST_keys req)); [done|].
      fold groups in Hok. by destruct groups. }
    rewrite Ho in Hok.
    destruct (merge_groups_merged req groups st st'
                (confirm_groups_ids_NoDup req st Hnd) Hok key g Hkg)
      as (primary & v & Hv & Hn & Hin & Hp & Hg & Ra & Rq & Rt).
    exists primary, v. split_and!; try done.
    unfold merged_into. split_and!; try done.
    apply Hp.
    destruct (confirm_groups_member req st key g primary Hkg Hin) as [Hs _].
    apply elem_of_selected_dupes in Hs. tauto.
Qed.

Lemma kept_groups_are_merged_witness :
  let req := merge_with_loner_request in
  let o := person_find_duplicates req hogwarts in
  let hp1 := mkPerson 1 "Harry" None "Potter" (Some "harry@hogwarts.edu") in
  let hp4 := mkPerson 4 "Harry" (Some "J.") "Potter" None in
  let hw := mkPerson 2 "Harry" None "Weasley" None in
  confirm_groups req hogwarts = [(("Harry", "Potter"), [hp4; hp1])]
  ∧ hw ∈ selected_dupes req hogwarts
  ∧ same_at 2 hogwarts (store o)
  ∧ o = merged (store o)
  ∧ store o ≠ hogwarts
  ∧ ∃ primary v,
      POST_primary req ("Harry", "Potter") = Some v
      ∧ Py.int_of_str v = Some (person_id primary)
      ∧ merged_into primary [hp4; hp1] hogwarts (store o).
Proof.
  intros req o hp1 hp4 hw.
  destruct (kept_groups_are_merged req hogwarts
              ltac:(compute_done) ltac:(within_model) ltac:(compute_done)
              ltac:(compute_done))
    as (_ & _ & _ & _ & Hdiscard & Hmerged).
  split_and!.
  - compute_done.
  - compute_done.
  - apply (Hdiscard hw); compute_done.
  - compute_done.
  - compute_done.
  - apply (Hmerged (store o)); compute_done.
Defined.

End KeptGroupFacts.

(** ** More on the resubmission of the staged records *)

Module ResubmitMore.
Import BulkConfirm ResubmitFacts Samples MoreSamples.

Implicit Types (persons_tasks : list Staged.t)
  (records : list (string * string * string * string * string * string)).

(** The loop raises exactly when it is given more records than fit. *)
Lemma update_loop_exception k records persons_tasks :
  (k ≤ length persons_tasks)%nat →
  (update_loop k records persons_tasks).2
  = if decide (k + length records ≤ length persons_tasks)%nat
    then None else Some IndexError.
Proof.
  revert k persons_tasks.
  induction records as [|r rest IH]; intros k persons_tasks Hk; simpl.
  - by rewrite decide_True by lia.
  - destruct (decide (k < length persons_tasks)%nat) as [Hlt|Hge].
    + rewrite IH by (rewrite length_insert; lia). rewrite length_insert.
      destruct (decide (S k + length rest ≤ length persons_tasks)%nat);
        [rewrite decide_True by lia|rewrite decide_False by lia]; done.
    + simpl. by rewrite decide_False by lia.
Qed.

(** What the loop leaves at each index. *)
Lemma update_staged_lookup post persons_tasks k :
  (update_staged post persons_tasks).1 !! k
  = match data_update post !! k with
    | Some record =>
        if decide (k < length persons_tasks)%nat
        then Some (updated_record record) else None
    | None => persons_tasks !! k
    end.
Proof.
  unfold update_staged.
  destruct (data_update post !! k) as [record|] eqn:Hrec.
  - destruct (decide (k < length persons_tasks)%nat) as [Hlt|Hge].
    + by apply (update_loop_lookup_at 0 k).
    + apply lookup_ge_None. rewrite update_loop_length. lia.
  - apply update_loop_lookup_after. apply lookup_ge_None in Hrec. lia.
Qed.

(** X7. Posting the same form again changes nothing more: the staged
    list, and the exception if there is one, are those of the first
    resubmission. *)
Theorem resubmission_idempotent (post : gmap string (list string))
    (persons_tasks : list Staged.t) :
  update_staged post (update_staged post persons_tasks).1
  = update_staged post persons_tasks.
Proof.
  assert (∀ p q : list Staged.t * option exn, p.1 = q.1 → p.2 = q.2 → p = q)
    as Hpair by (intros [] []; simpl; congruence).
  apply Hpair.
  - apply list_eq. intros k. rewrite !update_staged_lookup.
    unfold update_staged.
    rewrite (update_loop_length 0 (data_update post) persons_tasks).
    by destruct (data_update post !! k).
  - unfold update_staged. rewrite !update_loop_exception by lia.
    by rewrite update_loop_length.
Qed.

Section Overflow.

Variable verify_upload_person_task : Store → list Staged.t → list Staged.t * bool.
Variable create_uploaded_persons_tasks :
  Store → list Staged.t → exn + (list Person * list Task * Store).

Local Abbreviation view :=
  (person_bulk_add_confirmation verify_upload_person_task
     create_uploaded_persons_tasks).

(** X6. The resubmission assigns by index without a bound check: it
    raises [IndexError] exactly when the shortest posted list is longer
    than the staged list, and the request then ends in that exception,
    whatever it asked for, with nothing verified or committed. *)
Theorem resubmission_overflow (req : Request) (persons_tasks : list Staged.t)
    (st : Store) :
  persons_tasks ≠ [] → method req = POST →
  ((update_staged (POST_data req) persons_tasks).2 = Some IndexError
   ↔ (length persons_tasks < shortest (POST_data req))%nat)
  ∧ ((shortest (POST_data req) ≤ length persons_tasks)%nat →
     (update_staged (POST_data req) persons_tasks).2 = None)
  ∧ ((length persons_tasks < shortest (POST_data req))%nat →
     response (view req (Some persons_tasks) st) = Uncaught IndexError
     ∧ store (view req (Some persons_tasks) st) = st).
Proof.
  intros Hne Hm.
  assert ((update_staged (POST_data req) persons_tasks).2
          = if decide (shortest (POST_data req) ≤ length persons_tasks)%nat
            then None else Some IndexError) as Hexn.
  { unfold update_staged. rewrite update_loop_exception by lia.
    by rewrite data_update_length. }
  split_and!.
  - rewrite Hexn. destruct (decide _); split; try done; lia.
  - intros Hle. rewrite Hexn. by rewrite decide_True.
  - intros Hlt. rewrite decide_False in Hexn by lia.
    unfold person_bulk_add_confirmation.
    destruct persons_tasks as [|r rs]; [done|]. rewrite Hm.
    destruct (update_staged (POST_data req) (r :: rs)) as [l e].
    simpl in Hexn. by subst e.
Qed.

End Overflow.

Lemma resubmission_overflow_witness :
  ((update_staged (POST_data two_rows_request) staged_hermione).2 = Some IndexError
   ↔ (length staged_hermione < shortest (POST_data two_rows_request))%nat)
  ∧ ((shortest (POST_data two_rows_request) ≤ length staged_hermione)%nat →
     (update_staged (POST_data two_rows_request) staged_hermione).2 = None)
  ∧ ((length staged_hermione < shortest (POST_data two_rows_request))%nat →
     response (person_bulk_add_confirmation Upload.verify_upload_person_task
                 Upload.create_uploaded_persons_tasks two_rows_request
                 (Some staged_hermione) hogwarts) = Uncaught IndexError
     ∧ store (person_bulk_add_confirmation Upload.verify_upload_person_task
                Upload.create_uploaded_persons_tasks two_rows_request
                (Some staged_hermione) hogwarts) = hogwarts).
Proof.
  apply (resubmission_overflow Upload.verify_upload_person_task
           Upload.create_uploaded_persons_tasks two_rows_request
           staged_hermione hogwarts); compute_done.
Defined.

End ResubmitMore.

(** ** More on the confirmation view *)

Module ConfirmMore.
Import BulkConfirm ResubmitFacts Samples MoreSamples.

Section Flow.

Variable verify_upload_person_task : Store → list Staged.t → list Staged.t * bool.
Variable create_uploaded_persons_tasks :
  Store → list Staged.t → exn + (list Person * list Task * Store).

Local Abbreviation view :=
  (person_bulk_add_confirmation verify_upload_person_task
     create_uploaded_persons_tasks).

(** X8. The confirmation view writes to the store on one path only: a
    POST on a staged batch whose resubmission raised nothing, without
    [verify], with [confirm] and without [cancel], and whose commit
    succeeded; the store is then the one the committer returned. *)
Theorem store_written_only_on_save (req : Request)
    (session : option (list Staged.t)) (st : Store) :
  store (view req session st) ≠ st →
  method req = POST
  ∧ QueryDict.truthy "verify" (POST_data req) = false
  ∧ QueryDict.truthy "confirm" (POST_data req) = true
  ∧ QueryDict.truthy "cancel" (POST_data req) = false
  ∧ ∃ persons_tasks updated persons_created tasks_created,
      session = Some persons_tasks
      ∧ update_staged (POST_data req) persons_tasks = (updated, None)
      ∧ create_uploaded_persons_tasks st
          (verify_upload_person_task st updated).1
        = inr (persons_created, tasks_created, store (view req session st)).
Proof.
  unfold person_bulk_add_confirmation.
  destruct session as [[|r rs]|]; [done| |done].
  destruct (method req); [done|].
  destruct (update_staged (POST_data req) (r :: rs)) as [updated [e|]] eqn:Hup;
    [done|].
  destruct (QueryDict.truthy "verify" (POST_data req)).
  { by destruct (verify_upload_person_task st updated). }
  destruct (QueryDict.truthy "confirm" (POST_data req)); [|done].
  destruct (QueryDict.truthy "cancel" (POST_data req)); [done|]. simpl.
  destruct (create_uploaded_persons_tasks st _)
    as [e|[[persons_created tasks_created] st']] eqn:Hc.
  { by destruct (is_commit_error e). }
  simpl. intros _. split_and!; try done.
  by exists (r :: rs), updated, persons_created, tasks_created.
Qed.

(** X9. The three buttons of the confirmation form, in the order the view
    tests them: [verify] only verifies, whatever else is posted; without
    it, [cancel] drops the staged batch even beside [confirm]; and with
    neither [verify] nor [confirm] the batch is dropped too.  None of
    these writes to the store. *)
Theorem button_precedence (req : Request) (persons_tasks updated : list Staged.t)
    (st : Store) :
  persons_tasks ≠ [] → method req = POST →
  update_staged (POST_data req) persons_tasks = (updated, None) →
  let o := view req (Some persons_tasks) st in
  let dropped := mkOutcome (Redirect "person_bulk_add") [] None st in
  (QueryDict.truthy "verify" (POST_data req) = true →
   o = mkOutcome
         (RenderResults (verify_upload_person_task st updated).1 200)
         (if (verify_upload_person_task st updated).2 then [FixAllErrors] else [])
         (Some (verify_upload_person_task st updated).1) st)
  ∧ (QueryDict.truthy "verify" (POST_data req) = false →
     QueryDict.truthy "cancel" (POST_data req) = true → o = dropped)
  ∧ (QueryDict.truthy "verify" (POST_data req) = false →
     QueryDict.truthy "confirm" (POST_data req) = false → o = dropped).
Proof.
  intros Hne Hm Hup o dropped. subst o dropped.
  unfold person_bulk_add_confirmation.
  destruct persons_tasks as [|r rs]; [done|]. rewrite Hm, Hup.
  split_and!.
  - intros ->. by destruct (verify_upload_person_task st updated).
  - intros -> ->. by destruct (QueryDict.truthy "confirm" (POST_data req)).
  - by intros -> ->.
Qed.

End Flow.

Lemma store_written_only_on_save_witness :
  let o := person_bulk_add_confirmation Upload.verify_upload_person_task
             Upload.create_uploaded_persons_tasks save_request
             (Some staged_hermione) hogwarts in
  method save_request = POST
  ∧ QueryDict.truthy "verify" (POST_data save_request) = false
  ∧ QueryDict.truthy "confirm" (POST_data save_request) = true
  ∧ QueryDict.truthy "cancel" (POST_data save_request) = false
  ∧ ∃ persons_tasks updated persons_created tasks_created,
      Some staged_hermione = Some persons_tasks
      ∧ update_staged (POST_data save_request) persons_tasks = (updated, None)
      ∧ Upload.create_uploaded_persons_tasks hogwarts
          (Upload.verify_upload_person_task hogwarts updated).1
        = inr (persons_created, tasks_created, store o).
Proof.
  apply (store_written_only_on_save Upload.verify_upload_person_task
           Upload.create_uploaded_persons_tasks save_request
           (Some staged_hermione) hogwarts). compute_done.
Defined.

Lemma button_precedence_witness :
  let view := person_bulk_add_confirmation Upload.verify_upload_person_task
                Upload.create_uploaded_persons_tasks in
  let verified :=
    Upload.verify_upload_person_task hogwarts
      (update_staged (POST_data all_buttons_request) staged_hermione).1 in
  let dropped := mkOutcome (Redirect "person_bulk_add") [] None hogwarts in
  view all_buttons_request (Some staged_hermione) hogwarts
  = mkOutcome (RenderResults verified.1 200)
      (if verified.2 then [FixAllErrors] else []) (Some verified.1) hogwarts
  ∧ view cancel_and_confirm_request (Some staged_hermione) hogwarts = dropped
  ∧ view no_button_request (Some staged_hermione) hogwarts = dropped
  ∧ view all_buttons_request (Some staged_hermione) hogwarts ≠ dropped.
Proof.
  intros view verified dropped. split_and!.
  - apply (proj1 (button_precedence Upload.verify_upload_person_task
                    Upload.create_uploaded_persons_tasks all_buttons_request
                    staged_hermione
                    (update_staged (POST_data all_buttons_request) staged_hermione).1
                    hogwarts ltac:(compute_done) ltac:(compute_done)
                    ltac:(compute_done))).
    compute_done.
  - apply (proj1 (proj2 (button_precedence Upload.verify_upload_person_task
                    Upload.create_uploaded_persons_tasks cancel_and_confirm_request
                    staged_hermione
                    (update_staged (POST_data cancel_and_confirm_request)
                       staged_hermione).1
                    hogwarts ltac:(compute_done) ltac:(compute_done)
                    ltac:(compute_done)))); compute_done.
  - apply (proj2 (proj2 (button_precedence Upload.verify_upload_person_task
                    Upload.create_uploaded_persons_tasks no_button_request
                    staged_hermione
                    (update_staged (POST_data no_button_request) staged_hermione).1
                    hogwarts ltac:(compute_done) ltac:(compute_done)
                    ltac:(compute_done)))); compute_done.
  - intros H. vm_compute in H. discriminate H.
Defined.

End ConfirmMore.

(** ** More on the upload view *)

Module BulkAddMore.
Import BulkAdd Samples MoreSamples.

(** X10. The upload view replaces the staged batch only when it redirects
    to the confirmation, with the records the reader returned; any other
    answer leaves the session as it was.  A GET, or a form that is not
    valid, never consults the reader. *)
Theorem upload_session_frame (DEFAULT_CHARSET : string)
    (upload_person_task_csv : string → string → exn + (list Staged.t * list string))
    (req : Request) (session : option (list Staged.t)) :
  let o := person_bulk_add DEFAULT_CHARSET upload_person_task_csv req session in
  (BulkAdd.session o = session
   ∨ response o = Redirect "person_bulk_add_confirmation"
     ∧ method req = POST ∧ form_is_valid req = true
     ∧ ∃ persons_tasks,
         upload_person_task_csv (charset_of DEFAULT_CHARSET req) (file req)
         = inr (persons_tasks, [])
         ∧ BulkAdd.session o = Some persons_tasks)
  ∧ (method req = GET ∨ form_is_valid req = false →
     o = mkOutcome (RenderForm DEFAULT_CHARSET) [] session).
Proof.
  cbv zeta. unfold person_bulk_add. split.
  - destruct (method req); [by left|].
    destruct (form_is_valid req); [|by left].
    destruct (upload_person_task_csv _ _) as [[]|[pts [|f fs]]] eqn:Hr;
      try (by left).
    right. split_and!; try done. by exists pts.
  - intros [->| ->]; [done|]. by destruct (method req).
Qed.

End BulkAddMore.

(** ** More on pagination *)

Module PaginationMore.
Import Pagination PaginationFacts Samples MoreSamples.

Section Pages.

Context {A : Type}.
Implicit Types (get : gmap string (list string)) (all_objects : list A).






End Pages.



End PaginationMore.

(** ** The page of an event *)

Module ValidateMore.
Import ValidateEvent.

Lemma append_assoc (a b c : string) : (a +:+ b) +:+ c = a +:+ (b +:+ c).
Proof.
  induction a as [|x a IH]; [done|].
  change (String x ((a +:+ b) +:+ c) = String x (a +:+ (b +:+ c))). by f_equal.
Qed.

(** A character that the pattern does not hold, put at the end, makes no
    new match. *)
Lemma prefix_snoc (old s : string) (ch : ascii) :
  Upload.has_char ch old = false → old ≠ "" →
  String.prefix old (s +:+ String ch "") = String.prefix old s.
Proof.
  revert s. induction old as [|a old IH]; intros s Hno Hne; [done|].
  simpl in Hno. destruct (decide (ch = a)) as [|Hch]; [done|].
  destruct s as [|b s].
  - change ("" +:+ String ch "") with (String ch ""). simpl.
    destruct (ascii_dec a ch); [congruence|done].
  - change (String b s +:+ String ch "") with (String b (s +:+ String ch "")).
    simpl. destruct (ascii_dec a b); [|done].
    destruct old as [|a' old']; [by destruct (s +:+ String ch ""), s|].
    by apply IH.
Qed.

Lemma prefix_length (old s : string) :
  String.prefix old s = true → (String.length old ≤ String.length s)%nat.
Proof.
  revert s. induction old as [|a old IH]; intros s; simpl; [lia|].
  destruct s as [|b s]; [done|]. simpl.
  destruct (ascii_dec a b); [|done]. intros H%IH. lia.
Qed.

Lemma replace_from_snoc (skip : nat) (old new s : string) (ch : ascii) :
  Upload.has_char ch old = false → old ≠ "" →
  (skip ≤ String.length s)%nat →
  replace_from skip old new (s +:+ String ch "")
  = replace_from skip old new s +:+ String ch "".
Proof.
  intros Hno Hne. revert skip.
  induction s as [|c r IH]; intros skip Hskip.
  - simpl in Hskip. assert (skip = 0%nat) as -> by lia.
    pose proof (prefix_snoc old "" ch Hno Hne) as Hp.
    change ("" +:+ String ch "") with (String ch "") in *.
    cbn [replace_from]. rewrite Hp. by destruct old.
  - destruct skip as [|k].
    + pose proof (prefix_snoc old (String c r) ch Hno Hne) as Hp.
      change (String c r +:+ String ch "") with (String c (r +:+ String ch "")) in *.
      cbn [replace_from]. rewrite Hp.
      destruct (String.prefix old (String c r)) eqn:Hpre; cbv iota.
      * rewrite IH, append_assoc; [done|].
        apply prefix_length in Hpre. simpl in Hpre. lia.
      * rewrite IH by lia. done.
    + change (String c r +:+ String ch "") with (String c (r +:+ String ch "")).
      cbn [replace_from]. apply IH. simpl in Hskip. lia.
Qed.

Lemma rstrip_char_snoc (ch : ascii) (s : string) :
  rstrip_char ch (s +:+ String ch "") = rstrip_char ch s.
Proof.
  induction s as [|c r IH].
  - change ("" +:+ String ch "") with (String ch ""). simpl.
    by rewrite decide_True.
  - change (String c r +:+ String ch "") with (String c (r +:+ String ch "")).
    simpl. by rewrite IH.
Qed.

Lemma page_url_of_slash (github_url : string) :
  page_url_of (github_url +:+ "/") = page_url_of github_url.
Proof.
  unfold page_url_of, replace.
  rewrite replace_from_snoc; [|done|done|lia].
  by rewrite rstrip_char_snoc.
Qed.

(** X13. A slash at the end of the address of an event does not change
    the page the validation fetches, nor its answer: the override posted
    as [url] with and without the slash give the same response, and so
    do two events whose addresses differ by it. *)
Theorem trailing_slash_is_ignored
    (get_by_ident : string → exn + Event) (requests_get : string → Z * string)
    (check_file : string → string → bool * list string)
    (get : gmap string (list string)) (event_ident github_url : string) :
  page_url_of (github_url +:+ "/") = page_url_of github_url
  ∧ validate_event get_by_ident requests_get check_file
      (<["url" := [github_url +:+ "/"]]> get) event_ident
    = validate_event get_by_ident requests_get check_file
        (<["url" := [github_url]]> get) event_ident
  ∧ (QueryDict.get "url" get = None →
     validate_event (λ ident, inr (mkEvent ident (Some (github_url +:+ "/"))))
       requests_get check_file get event_ident
     = match validate_event (λ ident, inr (mkEvent ident (Some github_url)))
               requests_get check_file get event_ident with
       | Render _ page error_messages =>
           Render (mkEvent event_ident (Some (github_url +:+ "/"))) page error_messages
       | Uncaught e => Uncaught e
       end).
Proof.
  split_and!.
  - apply page_url_of_slash.
  - unfold validate_event, QueryDict.get. rewrite !lookup_insert_eq. simpl.
    by rewrite page_url_of_slash.
  - intros Hnone. unfold validate_event. rewrite Hnone. simpl.
    rewrite page_url_of_slash.
    destruct (requests_get (page_url_of github_url)) as [status_code text].
    by destruct (decide (status_code ≠ 200)).
Qed.

Example page_of_an_event :
  page_url_of "https://github.com/swcarpentry/2014-alpha-event/"
  = "https://raw.githubusercontent.com/swcarpentry/2014-alpha-event/gh-pages/index.html".
Proof. vm_compute. reflexivity. Qed.

End ValidateMore.

(** ** Who taught in a period *)

Module DebriefMore.
Import Debrief.

Lemma elem_of_taught_between begin_date end_date tasks (t : Row) :
  t ∈ taught_between begin_date end_date tasks
  ↔ t ∈ tasks ∧ gte (event_end t) begin_date ∧ lte (event_start t) end_date
    ∧ role_name t = "instructor" ∧ may_contact t = true.
Proof.
  unfold taught_between. rewrite merge_sort_Permutation, list_elem_of_filter. tauto.
Qed.

(** X14. On a valid POST, the debrief lists the tasks of instructors who
    may be contacted at the events that have a day in common with the
    period asked for, for an event with its dates in order and a period
    with its dates in order; a task of an event without a start or an
    end is never listed.  On a POST whose form is not valid the view
    reads [tasks] before binding it and ends in an [UnboundLocalError]. *)
Theorem debrief_lists_overlapping_events (req : Request) (tasks : list Row) :
  method req = POST →
  (form_is_valid req = false → debrief req tasks = UnboundLocalError "tasks")
  ∧ (form_is_valid req = true → begin_date req ≤ end_date req →
     ∃ shown, debrief req tasks = Render (Some shown)
       ∧ (∀ t, t ∈ shown → is_Some (event_start t) ∧ is_Some (event_end t))
       ∧ (∀ t s e, event_start t = Some s → event_end t = Some e → s ≤ e →
            t ∈ shown
            ↔ t ∈ tasks ∧ role_name t = "instructor" ∧ may_contact t = true
              ∧ ∃ day, s ≤ day ≤ e ∧ begin_date req ≤ day ≤ end_date req)).
Proof.
  intros Hm. unfold debrief. rewrite Hm. split; [by intros ->|].
  intros -> Hperiod. eexists. split; [done|]. split.
  - intros t (_ & Hend & Hstart & _)%elem_of_taught_between.
    destruct (event_start t), (event_end t); simpl in *; done.
  - intros t s e Hs He Hse. rewrite elem_of_taught_between, Hs, He. simpl.
    split.
    + intros (Hin & Hend & Hstart & Hrole & Hcontact). split_and!; try done.
      exists (Z.max s (begin_date req)). lia.
    + intros (Hin & Hrole & Hcontact & day & Hday1 & Hday2).
      split_and!; try done; lia.
Qed.

Lemma debrief_lists_overlapping_events_witness :
  let req := mkRequest POST true 10 20 in
  let tasks := [ mkRow 1 1 1 (Some 18) (Some 22) "instructor" true;
                 mkRow 2 1 1 (Some 30) (Some 31) "instructor" true ] in
  (form_is_valid req = false → debrief req tasks = UnboundLocalError "tasks")
  ∧ (form_is_valid req = true → begin_date req ≤ end_date req →
     ∃ shown, debrief req tasks = Render (Some shown)
       ∧ (∀ t, t ∈ shown → is_Some (event_start t) ∧ is_Some (event_end t))
       ∧ (∀ t s e, event_start t = Some s → event_end t = Some e → s ≤ e →
            t ∈ shown
            ↔ t ∈ tasks ∧ role_name t = "instructor" ∧ may_contact t = true
              ∧ ∃ day, s ≤ day ≤ e ∧ begin_date req ≤ day ≤ end_date req)).
Proof.
  exact (debrief_lists_overlapping_events (mkRequest POST true 10 20)
           [ mkRow 1 1 1 (Some 18) (Some 22) "instructor" true;
             mkRow 2 1 1 (Some 30) (Some 31) "instructor" true ] eq_refl).
Defined.

Example debrief_of_a_period :
  debrief (mkRequest POST true 10 20)
    [ mkRow 2 1 1 (Some 30) (Some 31) "instructor" true;
      mkRow 1 7 1 (Some 18) (Some 22) "instructor" true;
      mkRow 1 3 1 (Some 18) (Some 22) "instructor" true;
      mkRow 1 4 2 (Some 18) (Some 22) "helper" true;
      mkRow 1 5 1 (Some 18) (Some 22) "instructor" false ]
  = Render (Some [ mkRow 1 3 1 (Some 18) (Some 22) "instructor" true;
                   mkRow 1 7 1 (Some 18) (Some 22) "instructor" true ]).
Proof. vm_compute. reflexivity. Qed.

End DebriefMore.

(** ** The exports *)

Module ExportFacts.
Import Exports.

Section Counting.

Context {A B : Type}.
Implicit Types (F G : B → nat) (bs : list B) (rows : list A).

Lemma sum_list_with_add F G bs :
  sum_list_with (λ b, F b + G b)%nat bs
  = (sum_list_with F bs + sum_list_with G bs)%nat.
Proof. induction bs as [|b bs IH]; simpl; [done|]. rewrite IH. lia. Qed.

Lemma sum_list_with_ext F G bs :
  (∀ b, F b = G b) → sum_list_with F bs = sum_list_with G bs.
Proof. intros Heq. induction bs as [|b bs IH]; simpl; [done|]. by rewrite Heq, IH. Qed.

Lemma sum_list_with_zero bs : sum_list_with (λ _ : B, 0%nat) bs = 0%nat.
Proof. induction bs as [|b bs IH]; simpl; [done|]. by rewrite IH. Qed.

Lemma sum_list_with_nonzero F bs :
  sum_list_with F (filter (λ b, F b ≠ 0%nat) bs) = sum_list_with F bs.
Proof.
  induction bs as [|b bs IH]; simpl; [done|]. rewrite filter_cons.
  destruct (decide (F b ≠ 0%nat)) as [|Hz]; simpl; rewrite IH; [done|].
  destruct (F b); [done|]. by destruct Hz.
Qed.

(** A key of a table with distinct keys is held by one row. *)
Lemma sum_list_with_key (key : B → Z) (z : Z) bs :
  NoDup (key <$> bs) →
  sum_list_with (λ b, if decide (z = key b) then 1 else 0)%nat bs
  = if decide (z ∈ key <$> bs) then 1%nat else 0%nat.
Proof.
  induction bs as [|b bs IH]; intros Hnd.
  - rewrite decide_False; [done|]. by intros ?%elem_of_nil.
  - rewrite fmap_cons in *. apply NoDup_cons in Hnd as [Hb Hnd]. simpl.
    rewrite IH by done. destruct (decide (z = key b)) as [->|Hne].
    + rewrite decide_False by done.
      by rewrite decide_True by apply list_elem_of_here.
    + destruct (decide (z ∈ key <$> bs)).
      * by rewrite decide_True by (by apply list_elem_of_further).
      * rewrite decide_False; [done|]. by intros [?|?]%elem_of_cons.
Qed.

(** Rows that refer to a table with distinct keys are counted once when
    they are counted by the row they refer to. *)
Lemma count_by_reference (ref : A → option Z) (key : B → Z) rows bs :
  NoDup (key <$> bs) →
  (∀ a z, a ∈ rows → ref a = Some z → z ∈ key <$> bs) →
  sum_list_with (λ b, length (filter (λ a, ref a = Some (key b)) rows)) bs
  = length (filter (λ a, ref a ≠ None) rows).
Proof.
  intros Hnd. induction rows as [|a rows IH]; intros Href.
  - simpl. apply sum_list_with_zero.
  - rewrite (sum_list_with_ext _
       (λ b, (if decide (ref a = Some (key b)) then 1 else 0)
             + length (filter (λ a, ref a = Some (key b)) rows))%nat).
    2:{ intros b. rewrite filter_cons. by destruct (decide _). }
    rewrite sum_list_with_add, IH.
    2:{ intros a' z Ha'. apply Href. by apply list_elem_of_further. }
    rewrite filter_cons. destruct (ref a) as [z|] eqn:Hz.
    + rewrite decide_True by done. simpl.
      rewrite (sum_list_with_ext _ (λ b, if decide (z = key b) then 1 else 0)%nat).
      2:{ intros b. destruct (decide (z = key b)) as [->|Hne].
          - by rewrite decide_True.
          - rewrite decide_False; [done|]. by intros [= ?]. }
      rewrite sum_list_with_key by done.
      rewrite decide_True; [done|].
      apply (Href a); [apply list_elem_of_here|done].
    + rewrite decide_False by (by intros ?). simpl.
      by rewrite sum_list_with_zero.
Qed.

End Counting.

Lemma sum_list_fmap_with {B} (F : B → nat) (bs : list B) :
  sum_list (F <$> bs) = sum_list_with F bs.
Proof.
  induction bs as [|b bs IH]; [done|].
  rewrite fmap_cons. change (F b + sum_list (F <$> bs) = F b + sum_list_with F bs)%nat.
  by rewrite IH.
Qed.

(** X15. The export of instructor locations lists an airport exactly when
    some person has it as home airport, with the number of those persons,
    which is never zero; with distinct airport keys and persons that
    refer to airports of the table, the counts add up to the number of
    persons that have an airport. *)
Theorem export_instructors_counts (airports : list Airport)
    (persons : list PersonRow) :
  NoDup (airport_pk <$> airports) →
  (∀ p z, p ∈ persons → airport_id p = Some z → z ∈ airport_pk <$> airports) →
  (∀ e, e ∈ _export_instructors airports persons → (0 < count e)%nat)
  ∧ (∀ a, a ∈ airports →
          mkAirportEntry (fullname a) (latlng a) (num_persons a persons)
          ∈ _export_instructors airports persons
          ↔ ∃ p, p ∈ persons ∧ airport_id p = Some (airport_pk a))
  ∧ sum_list (count <$> _export_instructors airports persons)
    = length (filter (λ p, airport_id p ≠ None) persons).
Proof.
  intros Hnd Href. unfold _export_instructors. split_and!.
  - intros e (a & -> & [Ha _]%list_elem_of_filter)%list_elem_of_fmap. simpl. lia.
  - intros a Ha. split.
    + intros (a' & [= _ _ Hc] & [Hz _]%list_elem_of_filter)%list_elem_of_fmap.
      rewrite <- Hc in Hz. unfold num_persons in Hz.
      destruct (filter _ persons) as [|p l] eqn:Hf; [done|].
      exists p.
      assert (p ∈ filter (λ p, airport_id p = Some (airport_pk a)) persons) as Hp
        by (rewrite Hf; apply list_elem_of_here).
      apply list_elem_of_filter in Hp. tauto.
    + intros (p & Hp & Hair). apply list_elem_of_fmap. exists a. split; [done|].
      apply list_elem_of_filter. split; [|done]. unfold num_persons.
      assert (p ∈ filter (λ p, airport_id p = Some (airport_pk a)) persons) as Hin
        by (by apply list_elem_of_filter).
      intros Hz. destruct (filter _ persons); [by apply elem_of_nil in Hin|done].
  - rewrite <- list_fmap_compose, sum_list_fmap_with.
    rewrite (sum_list_with_ext _ (λ a, num_persons a persons)) by done.
    rewrite sum_list_with_nonzero. unfold num_persons.
    by apply (count_by_reference airport_id airport_pk).
Qed.

Lemma export_instructors_counts_witness :
  let airports := [ mkAirport 1 "Airport 0x0" "0.0,0.0";
                    mkAirport 2 "Airport 0x50" "0.0,50.0" ] in
  let persons := [ mkPersonRow 1 "granger.h" "Hermione Granger" (Some 1);
                   mkPersonRow 2 "potter.h" "Harry Potter" (Some 1);
                   mkPersonRow 3 "romanova.n" "Natasha Romanova" None ] in
  (∀ e, e ∈ _export_instructors airports persons → (0 < count e)%nat)
  ∧ (∀ a, a ∈ airports →
          mkAirportEntry (fullname a) (latlng a) (num_persons a persons)
          ∈ _export_instructors airports persons
          ↔ ∃ p, p ∈ persons ∧ airport_id p = Some (airport_pk a))
  ∧ sum_list (count <$> _export_instructors airports persons)
    = length (filter (λ p, airport_id p ≠ None) persons).
Proof.
  apply (export_instructors_counts
           [ mkAirport 1 "Airport 0x0" "0.0,0.0";
             mkAirport 2 "Airport 0x50" "0.0,50.0" ]
           [ mkPersonRow 1 "granger.h" "Hermione Granger" (Some 1);
             mkPersonRow 2 "potter.h" "Harry Potter" (Some 1);
             mkPersonRow 3 "romanova.n" "Natasha Romanova" None ]).
  - compute_done.
  - intros p z Hp Hz.
    repeat (apply elem_of_cons in Hp as [->|Hp]); simpl in Hz;
      try (injection Hz as <-; compute_done); try done.
    by apply elem_of_nil in Hp.
Defined.

Lemma length_bind_with {B C} (f : B → list C) (bs : list B) :
  length (bs ≫= f) = sum_list_with (λ b, length (f b)) bs.
Proof.
  induction bs as [|b bs IH]; [done|].
  rewrite bind_cons, length_app, IH. done.
Qed.

Section Badges.

Variables (persons : list PersonRow) (awards : list AwardRow).

Local Abbreviation entries_of badge :=
  ((λ p, mkBadgeEntry (username p) (full_name p))
   <$> persons_with_badge (badge_id badge) persons awards).

Local Abbreviation step :=
  (λ (result : gmap string (list BadgeEntry)) badge,
     <[badge_name badge := entries_of badge]> result).

Lemma fold_badges_keys (badges : list Badge) (acc : gmap string (list BadgeEntry)) n :
  is_Some (foldl step acc badges !! n)
  ↔ is_Some (acc !! n) ∨ n ∈ badge_name <$> badges.
Proof.
  revert acc. induction badges as [|b badges IH]; intros acc; simpl.
  - split; [by left|]. by intros [?|?%elem_of_nil].
  - rewrite IH, lookup_insert, elem_of_cons.
    destruct (decide (badge_name b = n)) as [->|Hne].
    + split; [intros _; right; by left|]. intros _. left. by eexists.
    + split; [intros [?|?]; auto|]. intros [?|[?|?]]; auto. congruence.
Qed.

Lemma fold_badges_other (badges : list Badge) (acc : gmap string (list BadgeEntry)) n :
  n ∉ badge_name <$> badges → foldl step acc badges !! n = acc !! n.
Proof.
  revert acc. induction badges as [|b badges IH]; intros acc Hn; simpl; [done|].
  rewrite fmap_cons in Hn. apply not_elem_of_cons in Hn as [Hne Hn].
  rewrite IH by done. by apply lookup_insert_ne.
Qed.

Lemma fold_badges_lookup (badges : list Badge) (acc : gmap string (list BadgeEntry)) b :
  NoDup (badge_name <$> badges) → b ∈ badges →
  foldl step acc badges !! badge_name b = Some (entries_of b).
Proof.
  revert acc. induction badges as [|b0 badges IH]; intros acc Hnd Hb.
  - by apply elem_of_nil in Hb.
  - rewrite fmap_cons in Hnd. apply NoDup_cons in Hnd as [Hb0 Hnd]. simpl.
    apply elem_of_cons in Hb as [->|Hb].
    + rewrite fold_badges_other by done. apply lookup_insert_eq.
    + by apply IH.
Qed.

End Badges.

(** X16. The export of badges has an entry for every badge, also for one
    never awarded, and for no other name.  With distinct badge names,
    distinct person keys and awards that refer to persons of the table,
    the entry of a badge lists one user for each award of the badge: a
    person with two awards of it is listed twice. *)
Theorem export_badges_entries (badges : list Badge) (persons : list PersonRow)
    (awards : list AwardRow) :
  NoDup (badge_name <$> badges) → NoDup (row_id <$> persons) →
  (∀ a, a ∈ awards → award_person_id a ∈ row_id <$> persons) →
  (∀ n, is_Some (_export_badges badges persons awards !! n)
        ↔ n ∈ badge_name <$> badges)
  ∧ (∀ b, b ∈ badges →
       ∃ entries,
         _export_badges badges persons awards !! badge_name b = Some entries
         ∧ length entries
           = length (filter (λ a, award_badge_id a = badge_id b) awards)
         ∧ (∀ e, e ∈ entries
                 ↔ ∃ p a, p ∈ persons ∧ a ∈ awards
                          ∧ award_person_id a = row_id p
                          ∧ award_badge_id a = badge_id b
                          ∧ e = mkBadgeEntry (username p) (full_name p))).
Proof.
  intros Hnames Hids Href. unfold _export_badges. split.
  - intros n. rewrite fold_badges_keys, lookup_empty.
    split; [by intros [[? ?]|?]|auto].
  - intros b Hb. eexists. split; [by apply fold_badges_lookup|]. split.
    + rewrite length_fmap. unfold persons_with_badge.
      rewrite length_bind_with.
      rewrite (sum_list_with_ext _
         (λ p, length (filter
                 (λ a, (if decide (award_badge_id a = badge_id b)
                        then Some (award_person_id a) else None) = Some (row_id p))
                 awards))).
      2:{ intros p. rewrite length_fmap. f_equal. apply list_filter_iff.
          intros a. destruct (decide (award_badge_id a = badge_id b)).
          - split; [intros [-> _]; done|]. by intros [= ->].
          - split; [by intros [_ ?]|done]. }
      rewrite (count_by_reference _ row_id) by
        (try done; intros a z Ha; destruct (decide _); intros [= <-]; by apply Href).
      f_equal. apply list_filter_iff. intros a.
      by destruct (decide (award_badge_id a = badge_id b)).
    + intros e. rewrite list_elem_of_fmap. unfold persons_with_badge. split.
      * intros (p & -> & (p' & Hin & Hp')%list_elem_of_bind).
        apply list_elem_of_fmap in Hin as (a & -> & [[H1 H2] Ha]%list_elem_of_filter).
        by exists p', a.
      * intros (p & a & Hp & Ha & H1 & H2 & ->). exists p. split; [done|].
        apply list_elem_of_bind. exists p. split; [|done].
        apply list_elem_of_fmap. exists a. split; [done|].
        by apply list_elem_of_filter.
Qed.

Lemma export_badges_entries_witness :
  let badges := [ mkBadge 1 "instructor"; mkBadge 2 "organizer" ] in
  let persons := [ mkPersonRow 1 "granger.h" "Hermione Granger" (Some 1);
                   mkPersonRow 2 "potter.h" "Harry Potter" (Some 1) ] in
  let awards := [ mkAwardRow 1 1; mkAwardRow 2 1; mkAwardRow 2 1 ] in
  (∀ n, is_Some (_export_badges badges persons awards !! n)
        ↔ n ∈ badge_name <$> badges)
  ∧ (∀ b, b ∈ badges →
       ∃ entries,
         _export_badges badges persons awards !! badge_name b = Some entries
         ∧ length entries
           = length (filter (λ a, award_badge_id a = badge_id b) awards)
         ∧ (∀ e, e ∈ entries
                 ↔ ∃ p a, p ∈ persons ∧ a ∈ awards
                          ∧ award_person_id a = row_id p
                          ∧ award_badge_id a = badge_id b
                          ∧ e = mkBadgeEntry (username p) (full_name p))).
Proof.
  apply (export_badges_entries
           [ mkBadge 1 "instructor"; mkBadge 2 "organizer" ]
           [ mkPersonRow 1 "granger.h" "Hermione Granger" (Some 1);
             mkPersonRow 2 "potter.h" "Harry Potter" (Some 1) ]
           [ mkAwardRow 1 1; mkAwardRow 2 1; mkAwardRow 2 1 ]).
  - compute_done.
  - compute_done.
  - intros a Ha.
    repeat (apply elem_of_cons in Ha as [->|Ha]); try compute_done.
    by apply elem_of_nil in Ha.
Defined.

Example export_of_badges :
  _export_badges [ mkBadge 1 "instructor"; mkBadge 2 "organizer" ]
    [ mkPersonRow 1 "granger.h" "Hermione Granger" (Some 1);
      mkPersonRow 2 "potter.h" "Harry Potter" (Some 1) ]
    [ mkAwardRow 1 1; mkAwardRow 2 1; mkAwardRow 2 1 ]
  !! "instructor"
  = Some [ mkBadgeEntry "granger.h" "Hermione Granger";
           mkBadgeEntry "potter.h" "Harry Potter";
           mkBadgeEntry "potter.h" "Harry Potter" ].
Proof. vm_compute. reflexivity. Qed.

End ExportFacts.
